(** * Task manager: credential handling and the task store gateway

    A shallow embedding of the server handlers (register_user, login_user,
    get_user_tasks, update_task, delete_task, share_task, create_task), of
    the zod input schemas and of the tRPC procedures that guard them,
    together with the properties the specification states about them.

    Conventions of the embedding:
    - a JavaScript string is the [string] of its UTF-8 bytes; [Js.length]
      counts its UTF-16 code units, which is what [length] and zod's
      [min] count;
    - a [Date] is the number of milliseconds since the epoch, a [Z];
    - a number that stands for an id is a [Z]; the id columns are [serial]
      and [integer], and the database refuses a number they cannot hold
      ([Db.int4] is their 32-bit range), as it refuses a text with the
      character U+0000 and a timestamp outside what it can store; what
      the database refuses reaches the handler as the [DatabaseError] of
      the driver, before the statement has done anything;
    - the two sequences are taken to be far from their last value;
    - an optional field of a zod object is an [option];
    - a handler is a computation over the store that either returns a value
      or throws, leaving whatever it wrote before the throw. *)

From Stdlib Require Import ZArith List String Ascii Bool Lia.
From Stdlib Require Import Permutation Sorted DecimalString.
From Stdlib Require Import NArith QArith.
Import ListNotations.

Local Open Scope string_scope.
Local Open Scope Z_scope.

(* ===================================================================== *)
(** ** JavaScript runtime pieces the handlers call *)
(* ===================================================================== *)

Module Js.

(** The double quote and the line feed, as one-character strings. *)
Definition dquote : string := String (ascii_of_nat 34) EmptyString.
Definition lf : string := String (ascii_of_nat 10) EmptyString.

(** [`${n}`] for an integer [n]. *)
Definition number_toString (n : Z) : string :=
  NilZero.string_of_int (Z.to_int n).

(** The text of [s] before the first [sep] (all of [s] when there is
    none), and the text after it (nothing when there is none). *)
Fixpoint before_sep (sep : ascii) (s : string) : string :=
  match s with
  | EmptyString => EmptyString
  | String c rest =>
      if Ascii.eqb c sep then EmptyString else String c (before_sep sep rest)
  end.

Fixpoint after_sep (sep : ascii) (s : string) : option string :=
  match s with
  | EmptyString => None
  | String c rest => if Ascii.eqb c sep then Some rest else after_sep sep rest
  end.

(** [s.split(sep)] for a one-character separator: never the empty
    array, [''.split(':')] is [['']]. *)
Fixpoint split (sep : ascii) (s : string) : list string :=
  match s with
  | EmptyString => [EmptyString]
  | String c rest =>
      if Ascii.eqb c sep then EmptyString :: split sep rest
      else match split sep rest with
           | [] => [String c EmptyString]
           | piece :: pieces => String c piece :: pieces
           end
  end.

(** [!x] for [x : string | undefined]: [undefined] and [''] are falsy. *)
Definition falsy (x : option string) : bool :=
  match x with
  | None => true
  | Some EmptyString => true
  | Some (String _ _) => false
  end.

(** The value of one hexadecimal digit. *)
Definition hex_digit (c : ascii) : option N :=
  let n := N_of_ascii c in
  if ((48 <=? n) && (n <=? 57))%N then Some (n - 48)%N
  else if ((97 <=? n) && (n <=? 102))%N then Some (n - 87)%N
  else if ((65 <=? n) && (n <=? 70))%N then Some (n - 55)%N
  else None.

(** [Buffer.from(s, 'hex')]: pairs of digits are decoded until the first
    pair that is not hexadecimal; a trailing single character is
    dropped. *)
Fixpoint Buffer_from_hex (s : string) : list N :=
  match s with
  | String a (String b rest) =>
      match hex_digit a, hex_digit b with
      | Some hi, Some lo => (16 * hi + lo)%N :: Buffer_from_hex rest
      | _, _ => []
      end
  | _ => []
  end.

(** [crypto.timingSafeEqual(a, b)]: a RangeError ([None]) when the byte
    lengths differ, otherwise whether the buffers hold the same bytes. *)
Definition timingSafeEqual (a b : list N) : option bool :=
  if Nat.eqb (List.length a) (List.length b)
  then Some (forallb (fun p => N.eqb (fst p) (snd p)) (combine a b))
  else None.

(** The UTF-16 code units a character contributes, told from the first
    byte of its UTF-8 form: continuation bytes (10xxxxxx) add nothing, a
    byte that starts a four-byte form (11110xxx) stands for a surrogate
    pair, every other first byte for one code unit. *)
Definition code_units (c : ascii) : nat :=
  let n := N_of_ascii c in
  if ((128 <=? n) && (n <=? 191))%N then 0%nat
  else if (240 <=? n)%N then 2%nat
  else 1%nat.

(** [s.length]. *)
Fixpoint length (s : string) : nat :=
  match s with
  | EmptyString => 0%nat
  | String c rest => (code_units c + length rest)%nat
  end.

(** [buf.toString('hex')]: two lowercase digits per byte. *)
Definition hex_char (n : N) : ascii :=
  nth (N.to_nat n) (list_ascii_of_string "0123456789abcdef") "0"%char.

Fixpoint Buffer_toString_hex (bytes : list N) : string :=
  match bytes with
  | [] => EmptyString
  | b :: rest =>
      String (hex_char (b / 16))
        (String (hex_char (b mod 16)) (Buffer_toString_hex rest))
  end.

End Js.

(* ===================================================================== *)
(** ** The store: two tables, their sequences, and the console *)
(* ===================================================================== *)

(** What a handler can throw: [new Error(message)], the BAD_REQUEST the
    procedure layer raises when the input schema rejects the input, or
    the error of the database driver when the database refuses a
    statement. *)
Inductive Exception : Type :=
| Error (message : string)
| BadRequest
| DatabaseError.

Inductive Outcome (A : Type) : Type :=
| Returns (a : A)
| Throws (e : Exception).
Arguments Returns {A} a.
Arguments Throws {A} e.

Module Db.

(** A row of [usersTable]. *)
Module User.
Record t : Type := mk {
  id : Z;
  email : string;
  password_hash : string;
  created_at : Z
}.
End User.

(** A row of [tasksTable]. *)
Module Task.
Record t : Type := mk {
  id : Z;
  user_id : Z;
  title : string;
  description : string;
  due_date : Z;
  completed : bool;
  created_at : Z
}.
End Task.

(** The state a handler runs against. [users_seq] and [tasks_seq] are
    the last values handed out by the two [serial] sequences; [console]
    collects what [console.error] printed (label and message). *)
Record World : Type := mkWorld {
  users : list User.t;
  tasks : list Task.t;
  users_seq : Z;
  tasks_seq : Z;
  console : list (string * Exception)
}.

Definition with_users (w : World) (us : list User.t) (seq : Z) : World :=
  mkWorld us (tasks w) seq (tasks_seq w) (console w).

Definition with_tasks (w : World) (ts : list Task.t) (seq : Z) : World :=
  mkWorld (users w) ts (users_seq w) seq (console w).

Definition with_console (w : World) (c : list (string * Exception)) : World :=
  mkWorld (users w) (tasks w) (users_seq w) (tasks_seq w) c.

(** A computation over the store. *)
Definition M (A : Type) : Type := World -> Outcome A * World.

Definition ret {A} (a : A) : M A := fun w => (Returns a, w).

Definition bind {A B} (m : M A) (k : A -> M B) : M B :=
  fun w =>
    match m w with
    | (Returns a, w') => k a w'
    | (Throws e, w') => (Throws e, w')
    end.

Definition throw {A} (e : Exception) : M A := fun w => (Throws e, w).

(** [try { body } catch (error) { handler error }]. *)
Definition try_catch {A} (body : M A) (handler : Exception -> M A) : M A :=
  fun w =>
    match body w with
    | (Returns a, w') => (Returns a, w')
    | (Throws e, w') => handler e w'
    end.

Definition console_error (label : string) (e : Exception) : M unit :=
  fun w => (Returns tt, with_console w (console w ++ [(label, e)])).

(** The [catch] block every handler ends with: log, then rethrow. *)
Definition log_and_rethrow {A} (label : string) (body : M A) : M A :=
  try_catch body
    (fun error => bind (console_error label error) (fun _ => throw error)).

(** The range of the [serial] and [integer] columns. *)
Definition int4 (n : Z) : bool :=
  (-2147483648 <=? n) && (n <=? 2147483647).

(** What a [text] column takes: a string without the character U+0000. *)
Definition text_ok (s : string) : bool :=
  negb (existsb (Ascii.eqb Ascii.zero) (list_ascii_of_string s)).

(** The conditions the handlers put in a [where]: [eq(usersTable.id, v)],
    [eq(usersTable.email, v)], [eq(tasksTable.id, v)],
    [eq(tasksTable.user_id, v)] and [and(a, b)]. *)
Inductive UsersWhere : Type :=
| users_id_eq (v : Z)
| users_email_eq (v : string).

Inductive TasksWhere : Type :=
| tasks_id_eq (v : Z)
| tasks_user_id_eq (v : Z)
| tasks_and (a b : TasksWhere).

Definition users_where (c : UsersWhere) (u : User.t) : bool :=
  match c with
  | users_id_eq v => Z.eqb (User.id u) v
  | users_email_eq v => String.eqb (User.email u) v
  end.

Fixpoint tasks_where (c : TasksWhere) (t : Task.t) : bool :=
  match c with
  | tasks_id_eq v => Z.eqb (Task.id t) v
  | tasks_user_id_eq v => Z.eqb (Task.user_id t) v
  | tasks_and a b => tasks_where a t && tasks_where b t
  end.

(** Whether the database takes the values a condition compares with: a
    number compared with an integer column has to be in its range. (An
    email that reaches a handler has passed the schema's email test.) *)
Definition users_bound (c : UsersWhere) : bool :=
  match c with
  | users_id_eq v => int4 v
  | users_email_eq _ => true
  end.

Fixpoint tasks_bound (c : TasksWhere) : bool :=
  match c with
  | tasks_id_eq v => int4 v
  | tasks_user_id_eq v => int4 v
  | tasks_and a b => tasks_bound a && tasks_bound b
  end.

(** [db.select().from(usersTable).where(c)]. *)
Definition select_users (c : UsersWhere) : M (list User.t) :=
  fun w =>
    if users_bound c then (Returns (filter (users_where c) (users w)), w)
    else (Throws DatabaseError, w).

(** [db.select().from(tasksTable).where(c)]. *)
Definition select_tasks (c : TasksWhere) : M (list Task.t) :=
  fun w =>
    if tasks_bound c then (Returns (filter (tasks_where c) (tasks w)), w)
    else (Throws DatabaseError, w).

(** [db.insert(usersTable).values({email, password_hash}).returning()]:
    the sequence gives the id, [defaultNow()] the timestamp, and the
    UNIQUE constraint on [email] rejects a second row with that email. *)
Definition insert_user (now : Z) (e h : string) : M (list User.t) :=
  fun w =>
    let new_id := users_seq w + 1 in
    if existsb (fun u => String.eqb (User.email u) e) (users w)
    then (Throws (Error "duplicate key value violates unique constraint"),
          with_users w (users w) new_id)
    else
      let row := User.mk new_id e h now in
      (Returns [row], with_users w (users w ++ [row]) new_id).

(** [db.delete(tasksTable).where(c)]. *)
Definition delete_tasks (c : TasksWhere) : M unit :=
  fun w =>
    if tasks_bound c
    then (Returns tt,
          with_tasks w (filter (fun t => negb (tasks_where c t)) (tasks w))
            (tasks_seq w))
    else (Throws DatabaseError, w).

(** [Partial<typeof tasksTable.$inferInsert>], with the keys the update
    handler can set. *)
Record UpdateData : Type := mkUpdateData {
  set_title : option string;
  set_description : option string;
  set_due_date : option Z;
  set_completed : option bool
}.

(** [.set(updateData)] on one row. *)
Definition apply_set (d : UpdateData) (t : Task.t) : Task.t :=
  Task.mk (Task.id t) (Task.user_id t)
    (match set_title d with Some v => v | None => Task.title t end)
    (match set_description d with Some v => v | None => Task.description t end)
    (match set_due_date d with Some v => v | None => Task.due_date t end)
    (match set_completed d with Some v => v | None => Task.completed t end)
    (Task.created_at t).

Section Writes.

(** Whether the database takes a [Date] for a [timestamp] column, in the
    form the driver sends it; owned by the database and its driver. *)
Variable timestamp_ok : Z -> bool.

(** Whether the database takes the values of an insert into [tasksTable],
    and those of a [set]. *)
Definition task_values_ok (owner : Z) (t d : string) (due : Z) : bool :=
  int4 owner && text_ok t && text_ok d && timestamp_ok due.

Definition set_ok (d : UpdateData) : bool :=
  match set_title d with Some v => text_ok v | None => true end &&
  match set_description d with Some v => text_ok v | None => true end &&
  match set_due_date d with Some v => timestamp_ok v | None => true end.

(** [db.insert(tasksTable).values({...}).returning()]: values the
    database does not take are refused before anything happens; then the
    sequence gives the id, [defaultNow()] the creation time, and the
    foreign key has to find the owner. *)
Definition insert_task (now : Z) (owner : Z) (t d : string) (due : Z)
    (done : bool) : M (list Task.t) :=
  fun w =>
    if task_values_ok owner t d due
    then
      let new_id := tasks_seq w + 1 in
      if existsb (fun u => Z.eqb (User.id u) owner) (users w)
      then
        let row := Task.mk new_id owner t d due done now in
        (Returns [row], with_tasks w (tasks w ++ [row]) new_id)
      else (Throws (Error "violates foreign key constraint"),
            with_tasks w (tasks w) new_id)
    else (Throws DatabaseError, w).

(** [db.update(tasksTable).set(d).where(c).returning()]: refused, with
    nothing written, when the database does not take a value. *)
Definition update_tasks (c : TasksWhere) (d : UpdateData) : M (list Task.t) :=
  fun w =>
    if tasks_bound c && set_ok d
    then (Returns (map (apply_set d) (filter (tasks_where c) (tasks w))),
          with_tasks w
            (map (fun t => if tasks_where c t then apply_set d t else t) (tasks w))
            (tasks_seq w))
    else (Throws DatabaseError, w).

End Writes.

(** [ORDER BY key ASC]: the rows come back in some order that ascends in
    [key]; the query fixes nothing about rows with equal keys. *)
Definition order_by_asc {A} (key : A -> Z) (rows result : list A) : Prop :=
  Permutation rows result /\
  StronglySorted (fun a b => key a <= key b) result.

(** One order the engine may produce: insertion into an ascending list. *)
Fixpoint insert_asc {A} (key : A -> Z) (x : A) (l : list A) : list A :=
  match l with
  | [] => [x]
  | y :: l' => if key x <=? key y then x :: l else y :: insert_asc key x l'
  end.

Definition sort_asc {A} (key : A -> Z) (l : list A) : list A :=
  fold_right (insert_asc key) [] l.

(** [db.select().from(tasksTable).where(c).orderBy(asc(key))]: what the
    [where] selects, in any order the [orderBy] allows, or the error of
    the [where]. *)
Definition select_tasks_order_by (c : TasksWhere) (key : Task.t -> Z)
    (w : World) (out : Outcome (list Task.t) * World) : Prop :=
  match select_tasks c w with
  | (Returns rows, w') =>
      exists results, order_by_asc key rows results /\ out = (Returns results, w')
  | (Throws e, w') => out = (Throws e, w')
  end.

End Db.

Declare Scope store_scope.
Notation "x <- m ;; k" := (Db.bind m (fun x => k))
  (at level 61, m at next level, right associativity) : store_scope.
Notation "m ;;; k" := (Db.bind m (fun _ => k))
  (at level 61, right associativity) : store_scope.

Local Open Scope store_scope.

(* ===================================================================== *)
(** ** The schemas (schema.ts) *)
(* ===================================================================== *)

Module Schema.

Module RegisterUserInput.
Record t : Type := mk { email : string; password : string }.
End RegisterUserInput.

Module LoginUserInput.
Record t : Type := mk { email : string; password : string }.
End LoginUserInput.

Module CreateTaskInput.
Record t : Type := mk {
  user_id : Z;
  title : string;
  description : string;
  due_date : Z;
  completed : bool
}.
End CreateTaskInput.

(** The update input: the task id and four optional fields. It has no
    [user_id] field. *)
Module UpdateTaskInput.
Record t : Type := mk {
  id : Z;
  title : option string;
  description : option string;
  due_date : option Z;
  completed : option bool
}.
End UpdateTaskInput.

Module GetUserTasksInput.
Record t : Type := mk { user_id : Z }.
End GetUserTasksInput.

Module DeleteTaskInput.
Record t : Type := mk { id : Z; user_id : Z }.
End DeleteTaskInput.

Module ShareTaskInput.
Record t : Type := mk { id : Z; user_id : Z }.
End ShareTaskInput.

Module DeleteTaskResponse.
Record t : Type := mk { success : bool }.
End DeleteTaskResponse.

Module ShareTaskResponse.
Record t : Type := mk { shareText : string }.
End ShareTaskResponse.

(** [userSchema.omit({ password_hash: true })]. *)
Module PublicUser.
Record t : Type := mk { id : Z; email : string; created_at : Z }.
End PublicUser.

Module AuthResponse.
Record t : Type := mk { user : PublicUser.t; token : option string }.
End AuthResponse.

(** What arrives at a procedure before validation. *)
#[warnings="-register-all"] Inductive JsValue : Type :=
| JsUndefined
| JsNull
| JsBoolean (b : bool)
| JsNumber (n : Z)
| JsString (s : string)
| JsObject (fields : list (string * JsValue)).

(** [obj[key]]: [undefined] when the key is absent or [obj] is no object. *)
Fixpoint lookup (key : string) (fields : list (string * JsValue)) : JsValue :=
  match fields with
  | [] => JsUndefined
  | (k, v) :: rest => if String.eqb k key then v else lookup key rest
  end.

Definition field (key : string) (v : JsValue) : option JsValue :=
  match v with
  | JsObject fields => Some (lookup key fields)
  | _ => None
  end.

(** [z.string()]: only a string passes. *)
Definition z_string (v : JsValue) : option string :=
  match v with
  | JsString s => Some s
  | _ => None
  end.

(** [.min(n)] on a string schema. *)
Definition z_min (n : nat) (s : option string) : option string :=
  match s with
  | Some s' => if Nat.leb n (Js.length s') then Some s' else None
  | None => None
  end.

Section Email.

(** The test [z.string().email()] applies, which zod owns. *)
Variable is_email : string -> bool.

Definition z_email (s : option string) : option string :=
  match s with
  | Some s' => if is_email s' then Some s' else None
  | None => None
  end.

(** [registerUserInputSchema]. *)
Definition registerUserInputSchema (raw : JsValue)
    : option RegisterUserInput.t :=
  match field "email" raw, field "password" raw with
  | Some e, Some p =>
      match z_email (z_string e), z_min 6 (z_string p) with
      | Some email, Some password =>
          Some (RegisterUserInput.mk email password)
      | _, _ => None
      end
  | _, _ => None
  end.

(** [loginUserInputSchema]. *)
Definition loginUserInputSchema (raw : JsValue) : option LoginUserInput.t :=
  match field "email" raw, field "password" raw with
  | Some e, Some p =>
      match z_email (z_string e), z_string p with
      | Some email, Some password => Some (LoginUserInput.mk email password)
      | _, _ => None
      end
  | _, _ => None
  end.

End Email.

End Schema.

(* ===================================================================== *)
(** ** The handlers *)
(* ===================================================================== *)

Import Db Schema.

(** The messages the handlers throw, under the names the specification
    gives to the failures. *)
Definition DuplicateEmail : Exception := Error "Email already registered".
Definition InvalidCredentials : Exception := Error "Invalid email or password".
Definition TaskNotFound : Exception := Error "Task not found or access denied".
Definition TaskNotFound_by_id (id : Z) : Exception :=
  Error ("Task with id " ++ Js.number_toString id ++ " not found").
Definition OwnerNotFound (id : Z) : Exception :=
  Error ("User with id " ++ Js.number_toString id ++ " not found").

(** The radix-64 alphabet of bcrypt's modular crypt format. *)
Definition bcrypt_alphabet : list ascii :=
  list_ascii_of_string
    "./ABCDEFGHIJKLMNOPQRSTUVWXYZabcdefghijklmnopqrstuvwxyz0123456789".

Definition bcrypt_char (digit : N) : ascii :=
  nth (N.to_nat (digit mod 64)) bcrypt_alphabet "."%char.

Definition two_digits (n : N) : string :=
  if (n <? 10)%N then "0" ++ Js.number_toString (Z.of_N n)
  else Js.number_toString (Z.of_N n).

(* ===================================================================== *)
(** ** Sample data for the worked instances *)
(* ===================================================================== *)

Module Sample.

(** Stand-ins for the three functions that the runtime and zod own. *)
Definition digest (s : string) : string :=
  if String.eqb s "secret15a17" then "c0ffee" else "decade".

Definition radix64_digits (password : string) (cost : N) (entropy : list N)
    : list N :=
  entropy ++ [N.of_nat (String.length password); cost].

Definition looks_like_email (s : string) : bool :=
  match Js.after_sep "@" s with
  | Some (String _ _) => true
  | _ => false
  end.

Definition empty : World := mkWorld [] [] 0 0 [].

(** Alice's credential is the salt [5a17] and the digest of [secret1]
    with it; Bob's is the malformed one of the login tests. *)
Definition alice : User.t :=
  User.mk 1 "alice@example.com" "5a17:c0ffee" 1700000000000.

Definition bob : User.t :=
  User.mk 2 "bob@example.com" "malformed_hash_without_salt" 1700000000001.

(** Due on 2025-01-07, 2025-01-01 and 2025-01-03. *)
Definition docs_task : Task.t :=
  Task.mk 1 1 ("Fix " ++ Js.dquote ++ "critical" ++ Js.dquote ++ " bug & update docs")
    "" 1736208000000 false 1700000000002.

Definition urgent_task : Task.t :=
  Task.mk 2 1 "Urgent Task" "Due first" 1735689600000 false 1700000000003.

Definition later_task : Task.t :=
  Task.mk 3 1 "Tomorrow Task" "Due second" 1735862400000 true 1700000000004.

Definition bobs_task : Task.t :=
  Task.mk 4 2 "User 2 Task" "Not Alice's" 1735689600000 false 1700000000005.

Definition world : World :=
  mkWorld [alice; bob] [docs_task; urgent_task; later_task; bobs_task] 2 4 [].

(** Two tasks of one owner due at the same instant (2024-12-31). *)
Definition tie_first : Task.t :=
  Task.mk 1 1 "Task 1" "First task" 1735603200000 false 1700000000002.

Definition tie_second : Task.t :=
  Task.mk 2 1 "Task 2" "Second task" 1735603200000 true 1700000000003.

Definition tie_world : World :=
  mkWorld [alice] [tie_first; tie_second] 1 2 [].

(** The share text the specification gives for [docs_task], character
    code by character code. *)
Definition docs_share_text : string :=
  string_of_list_ascii (map ascii_of_nat
    [
67; 104; 101; 99; 107; 32; 111; 117; 116; 32; 109; 121; 32; 116; 97;
     115; 107; 58; 32; 34; 70; 105; 120; 32; 34; 99; 114; 105; 116; 105;
     99; 97; 108; 34; 32; 98; 117; 103; 32; 38; 32; 117; 112; 100; 97; 116;
     101; 32; 100; 111; 99; 115; 34; 10; 10; 68; 101; 115; 99; 114; 105;
     112; 116; 105; 111; 110; 58; 32; 10; 10; 35; 84; 97; 115; 107; 77; 97;
     110; 97; 103; 101; 109; 101; 110; 116; 32; 35; 80; 114; 111; 100; 117;
     99; 116; 105; 118; 105; 116; 121
    ]%nat).

(** A stand-in for what the database takes as a timestamp: the instants
    of the years 1 to 9999, which the driver prints with four digits. *)
Definition timestamp_ok (ms : Z) : bool :=
  (-62135596800000 <=? ms) && (ms <=? 253402300799999).

(** The first instant of the year 10000. *)
Definition year_10000 : Z := 253402300800000.

(** A password of five Cyrillic letters, ten bytes in UTF-8. *)
Definition cyrillic_password : string :=
  string_of_list_ascii (map ascii_of_nat
    [208; 191; 208; 176; 209; 128; 208; 190; 208; 187]%nat).

Definition short_password_input : JsValue :=
  JsObject [("email", JsString "short@example.com"); ("password", JsString "12345")].

End Sample.

(* ===================================================================== *)
(** ** The client: component state *)
(* ===================================================================== *)

(** [AuthUser] of App.tsx is the public user of the schema. The state of
    [App]: the signed-in user, the busy flag, what [localStorage] holds
    under [taskapp_user] (the stored user, which [JSON.stringify] and the
    parse on load carry over unchanged), and the browser console. *)
Module App.
Record t : Type := mk {
  user : option PublicUser.t;
  isLoading : bool;
  taskapp_user : option PublicUser.t;
  console : list (string * Exception)
}.
End App.

(** The state of [TaskDashboard]. *)
Module Dashboard.
Record t : Type := mk {
  tasks : list Task.t;
  isLoading : bool;
  showCreateForm : bool;
  activeTab : string;
  console : list (string * Exception)
}.
End Dashboard.

(** [Omit<CreateTaskInput, 'user_id'>], the data of [TaskForm]. *)
Module TaskData.
Record t : Type := mk {
  title : string;
  description : string;
  due_date : Z;
  completed : bool
}.
End TaskData.


(** Sample states of the client: Alice signed in, her dashboard showing
    her three tasks in due-date order, and the form data of a task due
    before all of them (2024-12-31). *)
Module SampleClient.

Definition alice : PublicUser.t :=
  PublicUser.mk 1 "alice@example.com" 1700000000000.

Definition dashboard : Dashboard.t :=
  Dashboard.mk [Sample.urgent_task; Sample.later_task; Sample.docs_task]
    false true "all" [].

Definition signed_out : App.t := App.mk None false None [].

Definition new_task : TaskData.t := TaskData.mk "T" "D" 1735603200000 false.

Definition new_task_input : CreateTaskInput.t :=
  CreateTaskInput.mk 1 "T" "D" 1735603200000 false.

End SampleClient.

(** The specification's reading of a stored credential, in its own words:
    salt and hash are separated by a colon, the salt is the text before
    the first colon and the hash the text after it (up to a further
    colon); the credential is malformed when the separator is missing or
    one of the two parts is empty. *)
Definition is_empty (s : string) : bool :=
  match s with EmptyString => true | String _ _ => false end.

Definition malformed_credential (stored : string) : bool :=
  match Js.after_sep ":" stored with
  | None => true
  | Some rest =>
      is_empty (Js.before_sep ":" stored) || is_empty (Js.before_sep ":" rest)
  end.

Section Handlers.

(** [createHash('sha256').update(s).digest('hex')], owned by the crypto
    module. *)
Variable sha256_hex : string -> string.

(** The radix-64 digits (salt, then digest) that bcrypt computes from a
    password, a cost and the random salt it drew; owned by the runtime. *)
Variable bcrypt_digits : string -> N -> list N -> list N.

(** Whether the database takes a [Date] for a [timestamp] column; owned
    by the database and its driver. *)
Variable timestamp_ok : Z -> bool.

(** [Bun.password.hash(password, { algorithm: 'bcrypt', cost })]: the
    modular crypt format, version, cost, then the digits in bcrypt's
    alphabet. [entropy] is the random salt the call draws. *)
Definition Bun_password_hash (password : string) (cost : N) (entropy : list N)
    : string :=
  "$2b$" ++ two_digits cost ++ "$" ++
  string_of_list_ascii (map bcrypt_char (bcrypt_digits password cost entropy)).

(* ------------------------- login_user.ts ------------------------------ *)

Definition hashPassword (password salt : string) : string :=
  sha256_hex (password ++ salt).

Definition verifyPassword (password storedHash : string) : bool :=
  let parts := Js.split ":" storedHash in
  let salt := nth_error parts 0 in
  let hash := nth_error parts 1 in
  if Js.falsy salt || Js.falsy hash then false
  else
    match salt, hash with
    | Some salt, Some hash =>
        let hashedInput := hashPassword password salt in
        match Js.timingSafeEqual (Js.Buffer_from_hex hash)
                                 (Js.Buffer_from_hex hashedInput) with
        | Some equal => equal
        | None => false
        end
    | _, _ => false
    end.

Definition public_user (user : User.t) : PublicUser.t :=
  PublicUser.mk (User.id user) (User.email user) (User.created_at user).

Definition loginUser (input : LoginUserInput.t) : M AuthResponse.t :=
  log_and_rethrow "User login failed:"
    (users <- select_users (users_email_eq (LoginUserInput.email input)) ;;
     match users with
     | [] => throw (Error "Invalid email or password")
     | user :: _ =>
         let isValidPassword :=
           verifyPassword (LoginUserInput.password input) (User.password_hash user) in
         if negb isValidPassword
         then throw (Error "Invalid email or password")
         else ret (AuthResponse.mk (public_user user) None)
     end).

(* ------------------------ register_user.ts ---------------------------- *)

(** [now] is the clock reading [defaultNow()] stores and [entropy] the
    salt the password hasher draws. *)
Definition registerUser (now : Z) (entropy : list N)
    (input : RegisterUserInput.t) : M AuthResponse.t :=
  log_and_rethrow "User registration failed:"
    (existingUsers <- select_users
         (users_email_eq (RegisterUserInput.email input)) ;;
     match existingUsers with
     | _ :: _ => throw (Error "Email already registered")
     | [] =>
         let passwordHash :=
           Bun_password_hash (RegisterUserInput.password input) 10 entropy in
         result <- insert_user now (RegisterUserInput.email input) passwordHash ;;
         match result with
         | user :: _ => ret (AuthResponse.mk (public_user user) None)
         | [] => throw (Error "Cannot read properties of undefined")
         end
     end).

(* ------------------------- create_task.ts ----------------------------- *)

Definition createTask (now : Z) (input : CreateTaskInput.t) : M Task.t :=
  log_and_rethrow "Task creation failed:"
    (users <- select_users (users_id_eq (CreateTaskInput.user_id input)) ;;
     match users with
     | [] => throw (OwnerNotFound (CreateTaskInput.user_id input))
     | _ :: _ =>
         result <- insert_task timestamp_ok now
                     (CreateTaskInput.user_id input)
                     (CreateTaskInput.title input)
                     (CreateTaskInput.description input)
                     (CreateTaskInput.due_date input)
                     (CreateTaskInput.completed input) ;;
         match result with
         | task :: _ => ret task
         | [] => throw (Error "Cannot read properties of undefined")
         end
     end).

(* ------------------------ get_user_tasks.ts --------------------------- *)

Definition owned_by (owner : Z) (t : Task.t) : bool :=
  Z.eqb (Task.user_id t) owner.

(** The handler is its [try] and [catch] around one query, which selects
    the owner's rows and asks for them in ascending [due_date]: every
    outcome the query allows is a run of the handler, and when the query
    throws, the [catch] block logs the error and throws it on. *)
Definition getUserTasks (input : GetUserTasksInput.t) (w : World)
    (out : Outcome (list Task.t) * World) : Prop :=
  exists results,
    select_tasks_order_by (tasks_user_id_eq (GetUserTasksInput.user_id input))
      Task.due_date w results /\
    out = log_and_rethrow "Get user tasks failed:" (fun _ => results) w.

(** The run in which the engine sorts by insertion. *)
Definition getUserTasks_run (input : GetUserTasksInput.t) : M (list Task.t) :=
  log_and_rethrow "Get user tasks failed:"
    (rows <- select_tasks (tasks_user_id_eq (GetUserTasksInput.user_id input)) ;;
     ret (sort_asc Task.due_date rows)).

(* -------------------------- update_task.ts ---------------------------- *)

Definition no_updateData : UpdateData := mkUpdateData None None None None.

Definition build_updateData (input : UpdateTaskInput.t) : UpdateData :=
  let updateData := no_updateData in
  let updateData :=
    match UpdateTaskInput.title input with
    | Some v => mkUpdateData (Some v) (set_description updateData)
                  (set_due_date updateData) (set_completed updateData)
    | None => updateData
    end in
  let updateData :=
    match UpdateTaskInput.description input with
    | Some v => mkUpdateData (set_title updateData) (Some v)
                  (set_due_date updateData) (set_completed updateData)
    | None => updateData
    end in
  let updateData :=
    match UpdateTaskInput.due_date input with
    | Some v => mkUpdateData (set_title updateData) (set_description updateData)
                  (Some v) (set_completed updateData)
    | None => updateData
    end in
  match UpdateTaskInput.completed input with
  | Some v => mkUpdateData (set_title updateData) (set_description updateData)
                (set_due_date updateData) (Some v)
  | None => updateData
  end.

(** [Object.keys(updateData).length]. *)
Definition key_count {A} (field : option A) : nat :=
  match field with Some _ => 1 | None => 0 end.

Definition Object_keys_length (d : UpdateData) : nat :=
  (key_count (set_title d) + key_count (set_description d) +
   key_count (set_due_date d) + key_count (set_completed d))%nat.

Definition has_id (id : Z) (t : Task.t) : bool := Z.eqb (Task.id t) id.

Definition updateTask (input : UpdateTaskInput.t) : M Task.t :=
  log_and_rethrow "Task update failed:"
    (existingTasks <- select_tasks (tasks_id_eq (UpdateTaskInput.id input)) ;;
     match existingTasks with
     | [] => throw (TaskNotFound_by_id (UpdateTaskInput.id input))
     | existing :: _ =>
         let updateData := build_updateData input in
         if Nat.eqb (Object_keys_length updateData) 0 then ret existing
         else
           result <- update_tasks timestamp_ok
                       (tasks_id_eq (UpdateTaskInput.id input)) updateData ;;
           match result with
           | [] => throw (Error ("Failed to update task with id " ++
                                 Js.number_toString (UpdateTaskInput.id input)))
           | updated :: _ => ret updated
           end
     end).

(* -------------------------- delete_task.ts ---------------------------- *)

Definition has_id_and_owner (id owner : Z) (t : Task.t) : bool :=
  Z.eqb (Task.id t) id && Z.eqb (Task.user_id t) owner.

Definition deleteTask (input : DeleteTaskInput.t) : M DeleteTaskResponse.t :=
  log_and_rethrow "Task deletion failed:"
    (existingTasks <- select_tasks
         (tasks_and (tasks_id_eq (DeleteTaskInput.id input))
                    (tasks_user_id_eq (DeleteTaskInput.user_id input))) ;;
     match existingTasks with
     | [] => throw (Error "Task not found or access denied")
     | _ :: _ =>
         delete_tasks
           (tasks_and (tasks_id_eq (DeleteTaskInput.id input))
                      (tasks_user_id_eq (DeleteTaskInput.user_id input))) ;;;
         ret (DeleteTaskResponse.mk true)
     end).

(* --------------------------- share_task.ts ---------------------------- *)

Definition shareText_of (title description : string) : string :=
  "Check out my task: " ++ Js.dquote ++ title ++ Js.dquote ++ Js.lf ++ Js.lf ++
  "Description: " ++ description ++ Js.lf ++ Js.lf ++
  "#TaskManagement #Productivity".

Definition shareTask (input : ShareTaskInput.t) : M ShareTaskResponse.t :=
  log_and_rethrow "Task sharing failed:"
    (tasks <- select_tasks
         (tasks_and (tasks_id_eq (ShareTaskInput.id input))
                    (tasks_user_id_eq (ShareTaskInput.user_id input))) ;;
     match tasks with
     | [] => throw (Error "Task not found or access denied")
     | task :: _ =>
         let shareText := shareText_of (Task.title task) (Task.description task) in
         ret (ShareTaskResponse.mk shareText)
     end).

(* ----------------------------- index.ts ------------------------------- *)

Variable is_email : string -> bool.

(** [publicProcedure.input(schema).mutation(({ input }) => handler(input))]:
    the schema parses the raw input first; the handler runs only on what
    the schema returned. *)
Definition procedure {I O} (schema : JsValue -> option I) (handler : I -> M O)
    (raw : JsValue) : M O :=
  match schema raw with
  | Some input => handler input
  | None => throw BadRequest
  end.

Definition registerUser_procedure (now : Z) (entropy : list N) : JsValue -> M AuthResponse.t :=
  procedure (registerUserInputSchema is_email) (registerUser now entropy).

Definition loginUser_procedure : JsValue -> M AuthResponse.t :=
  procedure (loginUserInputSchema is_email) loginUser.

(* ------------------- client: components/TaskList.tsx ------------------ *)

(** [now] is what [new Date()] reads. *)
Definition isOverdue (now : Z) (task : Task.t) : bool :=
  negb (Task.completed task) && (Task.due_date task <? now).

Definition Qlt_bool (x y : Q) : bool := negb (Qle_bool y x).

(** [hoursDiff] is the quotient of a whole number of milliseconds by
    3 600 000; such a quotient is 0 or 24 or at least 1/3 600 000 away
    from them, so comparing the rounded quotient of the source is
    comparing the exact one. *)
Definition getDueDateStatus (now : Z) (task : Task.t) : string :=
  if Task.completed task then "completed"
  else
    let dueDate := Task.due_date task in
    let timeDiff := dueDate - now in
    let hoursDiff := (inject_Z timeDiff / inject_Z (1000 * 3600))%Q in
    if Qlt_bool hoursDiff (inject_Z 0) then "overdue"
    else if Qlt_bool hoursDiff (inject_Z 24) then "due-soon"
    else "normal".

(** The text of the badge [getStatusBadge] renders. *)
Definition getStatusBadge (now : Z) (task : Task.t) : string :=
  let status := getDueDateStatus now task in
  if String.eqb status "completed" then "Completed"
  else if String.eqb status "overdue" then "Overdue"
  else if String.eqb status "due-soon" then "Due Soon"
  else "Scheduled".

(* ---------------- client: components/TaskDashboard.tsx ---------------- *)

(** The callback of [tasks.filter] for the active tab; [now] is what
    [new Date()] reads in this call of the callback. *)
Definition tab_shows (activeTab : string) (now : Z) (task : Task.t) : bool :=
  if String.eqb activeTab "completed" then Task.completed task
  else if String.eqb activeTab "pending" then negb (Task.completed task)
  else if String.eqb activeTab "overdue"
       then negb (Task.completed task) && (Task.due_date task <? now)
  else true.

(** [tasks.filter(callback)] for a callback that reads the clock:
    [clock i] is what the call for the element at index [i] reads. *)
Fixpoint filter_reading {A} (callback : Z -> A -> bool) (clock : nat -> Z)
    (i : nat) (l : list A) : list A :=
  match l with
  | [] => []
  | x :: rest =>
      if callback (clock i) x then x :: filter_reading callback clock (S i) rest
      else filter_reading callback clock (S i) rest
  end.

Definition filteredTasks (activeTab : string) (clock : nat -> Z)
    (tasks : list Task.t) : list Task.t :=
  filter_reading (tab_shows activeTab) clock 0 tasks.

Definition completedTasks (tasks : list Task.t) : nat :=
  List.length (filter Task.completed tasks).

Definition pendingTasks (tasks : list Task.t) : nat :=
  List.length (filter (fun task => negb (Task.completed task)) tasks).

Definition overdueTasks (clock : nat -> Z) (tasks : list Task.t) : nat :=
  List.length
    (filter_reading
       (fun now task => negb (Task.completed task) && (Task.due_date task <? now))
       clock 0 tasks).

(** A client handler runs against its component and the server. *)
Definition Client (C A : Type) : Type := C * World -> Outcome A * (C * World).

Definition dashboard_log (label : string) (e : Exception) (d : Dashboard.t)
    : Dashboard.t :=
  Dashboard.mk (Dashboard.tasks d) (Dashboard.isLoading d)
    (Dashboard.showCreateForm d) (Dashboard.activeTab d)
    (Dashboard.console d ++ [(label, e)]).

(** What is left of [createTaskInputSchema] to check on an input that has
    its TypeScript type: the title has at least one character. *)
Definition createTask_procedure (now : Z) (input : CreateTaskInput.t) : M Task.t :=
  if Nat.leb 1 (Js.length (CreateTaskInput.title input))
  then createTask now input
  else throw BadRequest.

Definition handleCreateTask (user : PublicUser.t) (now : Z) (taskData : TaskData.t)
    : Client Dashboard.t unit :=
  fun s =>
    let (d, w) := s in
    match createTask_procedure now
            (CreateTaskInput.mk (PublicUser.id user) (TaskData.title taskData)
               (TaskData.description taskData) (TaskData.due_date taskData)
               (TaskData.completed taskData)) w with
    | (Returns newTask, w') =>
        (Returns tt,
         (Dashboard.mk (Dashboard.tasks d ++ [newTask]) (Dashboard.isLoading d)
            false (Dashboard.activeTab d) (Dashboard.console d), w'))
    | (Throws error, w') =>
        (Throws error, (dashboard_log "Failed to create task:" error d, w'))
    end.

Definition handleDeleteTask (user : PublicUser.t) (taskId : Z)
    : Client Dashboard.t unit :=
  fun s =>
    let (d, w) := s in
    match deleteTask (DeleteTaskInput.mk taskId (PublicUser.id user)) w with
    | (Returns _, w') =>
        (Returns tt,
         (Dashboard.mk
            (filter (fun task => negb (Task.id task =? taskId)) (Dashboard.tasks d))
            (Dashboard.isLoading d) (Dashboard.showCreateForm d)
            (Dashboard.activeTab d) (Dashboard.console d), w'))
    | (Throws error, w') =>
        (Throws error, (dashboard_log "Failed to delete task:" error d, w'))
    end.

(* ----------- client: RegisterForm.tsx, LoginForm.tsx, App.tsx --------- *)


Definition LoginForm_handleSubmit {C}
    (onLogin : string -> string -> Client C unit)
    (email password : string) (s : C * World) : string * (C * World) :=
  if is_empty email || is_empty password
  then ("Please fill in all fields", s)
  else
    match onLogin email password s with
    | (Returns _, s') => ("", s')
    | (Throws _, s') => ("Invalid email or password. Please try again.", s')
    end.

(** The [try], [catch] and [finally] both handlers of [App] share: on a
    response the user is set and stored, on an error it is logged and
    thrown on, and the busy flag is down at the end either way. *)
Definition App_authenticate (label : string) (call : M AuthResponse.t)
    : Client App.t unit :=
  fun s =>
    let (a, w) := s in
    match call w with
    | (Returns response, w') =>
        let authUser := AuthResponse.user response in
        (Returns tt, (App.mk (Some authUser) false (Some authUser) (App.console a), w'))
    | (Throws error, w') =>
        (Throws error,
         (App.mk (App.user a) false (App.taskapp_user a)
            (App.console a ++ [(label, error)]), w'))
    end.

Definition credentials (email password : string) : JsValue :=
  JsObject [("email", JsString email); ("password", JsString password)].

Definition handleLogin (email password : string) : Client App.t unit :=
  App_authenticate "Login failed:" (loginUser_procedure (credentials email password)).


(* ------------------- vocabulary of the statements --------------------- *)

(** The world after a handler's [catch] block logged [e] under [label]. *)
Definition logged (label : string) (e : Exception) (w : World) : World :=
  with_console w (console w ++ [(label, e)]).

(** The first stored user whose email is exactly [e]: [users[0]] of the
    lookup both credential handlers start with. *)
Definition user_with_email (e : string) (w : World) : option User.t :=
  find (fun u => String.eqb (User.email u) e) (users w).



(** The order the specification asks of a task list: ascending due date,
    and ascending id among equal due dates. *)
Definition by_due_date_then_id (a b : Task.t) : Prop :=
  Task.due_date a < Task.due_date b \/
  (Task.due_date a = Task.due_date b /\ Task.id a <= Task.id b).

Definition by_due_date (a b : Task.t) : Prop :=
  Task.due_date a <= Task.due_date b.

(** What the lookups find first, for numbers the id columns can hold:
    the first stored user with the given id ([users[0]] of the lookup the
    creation of a task starts with), the first stored task with the given
    id ([existingTasks[0]] of the update), and the first with the given
    id and owner ([existingTasks[0]] of the delete, [tasks[0]] of the
    share). A number outside the range of the columns finds nothing. *)
Definition user_with_id (id : Z) (w : World) : option User.t :=
  if int4 id then find (fun u => Z.eqb (User.id u) id) (users w) else None.

Definition task_with_id (id : Z) (w : World) : option Task.t :=
  if int4 id then find (has_id id) (tasks w) else None.

Definition task_of (id owner : Z) (w : World) : option Task.t :=
  if int4 id && int4 owner then find (has_id_and_owner id owner) (tasks w)
  else None.

(** What a lookup that found nothing throws: the handler's own failure
    when the database took the numbers, the database's error when it did
    not. *)
Definition lookup_failure (taken : bool) (not_found : Exception) : Exception :=
  if taken then not_found else DatabaseError.

(** The task the specification expects of an update, read off the input:
    a field the input carries takes the input's value, every other field
    keeps its own. *)
Definition or_else {A} (field : option A) (prior : A) : A :=
  match field with Some v => v | None => prior end.

Definition patched (input : UpdateTaskInput.t) (t : Task.t) : Task.t :=
  Task.mk (Task.id t) (Task.user_id t)
    (or_else (UpdateTaskInput.title input) (Task.title t))
    (or_else (UpdateTaskInput.description input) (Task.description t))
    (or_else (UpdateTaskInput.due_date input) (Task.due_date t))
    (or_else (UpdateTaskInput.completed input) (Task.completed t))
    (Task.created_at t).

(** Whether the database takes every value an update input carries, and
    every value of a creation input. *)
Definition update_accepted (input : UpdateTaskInput.t) : bool :=
  match UpdateTaskInput.title input with Some v => text_ok v | None => true end &&
  match UpdateTaskInput.description input with Some v => text_ok v | None => true end &&
  match UpdateTaskInput.due_date input with Some v => timestamp_ok v | None => true end.

Definition create_accepted (input : CreateTaskInput.t) : bool :=
  text_ok (CreateTaskInput.title input) &&
  text_ok (CreateTaskInput.description input) &&
  timestamp_ok (CreateTaskInput.due_date input).

(** The same store with every task handed to another owner. *)
Definition set_owner (g : Z -> Z) (t : Task.t) : Task.t :=
  Task.mk (Task.id t) (g (Task.user_id t)) (Task.title t) (Task.description t)
    (Task.due_date t) (Task.completed t) (Task.created_at t).

Definition reassign (g : Z -> Z) (w : World) : World :=
  with_tasks w (map (set_owner g) (tasks w)) (tasks_seq w).

Definition map_outcome {A B} (f : A -> B) (o : Outcome A) : Outcome B :=
  match o with
  | Returns a => Returns (f a)
  | Throws e => Throws e
  end.

(* ---------------------- login_user.test.ts ---------------------------- *)

(** The helper the login tests store credentials with: the salt is the
    hex print of the random bytes drawn, joined by a colon to the digest
    of password and salt. [random] is what [randomBytes(16)] returned. *)
Definition createPasswordHash (password : string) (random : list N) : string :=
  let salt := Js.Buffer_toString_hex random in
  let hash := hashPassword password salt in
  salt ++ ":" ++ hash.

(* ------------------------- db/schema.ts ------------------------------- *)

(** What the table declarations promise of a store: ids are primary keys
    handed out by the sequences, emails are unique, and every task
    references a stored user. *)
Definition consistent (w : World) : Prop :=
  NoDup (map User.id (users w)) /\
  NoDup (map User.email (users w)) /\
  (forall u, In u (users w) -> User.id u <= users_seq w) /\
  NoDup (map Task.id (tasks w)) /\
  (forall t, In t (tasks w) -> Task.id t <= tasks_seq w) /\
  (forall t, In t (tasks w) ->
     exists u, In u (users w) /\ User.id u = Task.user_id t).

(** Letter case raised, to say that two hex strings differ in case only. *)
Definition upper_char (c : ascii) : ascii :=
  let n := N_of_ascii c in
  if ((97 <=? n) && (n <=? 122))%N then ascii_of_N (n - 32) else c.

Fixpoint uppercase (s : string) : string :=
  match s with
  | EmptyString => EmptyString
  | String c rest => String (upper_char c) (uppercase rest)
  end.

(* ===================================================================== *)
(** ** Properties *)
(* ===================================================================== *)

(** *** Splitting and the credential format *)

Lemma split_before_after (sep : ascii) (s : string) :
  Js.split sep s =
  Js.before_sep sep s ::
    match Js.after_sep sep s with
    | None => []
    | Some rest => Js.split sep rest
    end.
Proof.
  induction s as [| c rest IH]; simpl.
  - reflexivity.
  - destruct (Ascii.eqb c sep).
    + reflexivity.
    + rewrite IH. reflexivity.
Qed.

Lemma after_sep_none_iff (sep : ascii) (s : string) :
  Js.after_sep sep s = None <-> ~ In sep (list_ascii_of_string s).
Proof.
  induction s as [| c rest IH]; simpl.
  - split; [intros _ [] | reflexivity].
  - destruct (Ascii.eqb_spec c sep) as [-> | Hne].
    + split; [discriminate | intros H; exfalso; apply H; now left].
    + rewrite IH. split.
      * intros H [Heq | Hin]; [now apply Hne | now apply H].
      * intros H Hin. apply H. now right.
Qed.

Lemma verifyPassword_malformed (password stored : string) :
  malformed_credential stored = true -> verifyPassword password stored = false.
Proof.
  unfold malformed_credential, verifyPassword.
  rewrite (split_before_after ":" stored).
  destruct (Js.after_sep ":" stored) as [rest |]; simpl.
  - rewrite (split_before_after ":" rest); simpl.
    unfold is_empty. intros ->. reflexivity.
  - intros _. now rewrite orb_true_r.
Qed.

Lemma timingSafeEqual_true_iff (a b : list N) :
  Js.timingSafeEqual a b = Some true <-> a = b.
Proof.
  unfold Js.timingSafeEqual. revert b.
  induction a as [| x a IH]; intros [| y b]; simpl.
  - split; reflexivity.
  - split; discriminate.
  - split; discriminate.
  - specialize (IH b). destruct (Nat.eqb (List.length a) (List.length b)).
    + destruct (N.eqb_spec x y) as [-> | Hne]; simpl.
      * rewrite IH. split; [now intros -> | now intros [= ->]].
      * split; [discriminate | intros [= Hxy _]; contradiction].
    + split; [discriminate |]. intros [= _ Hab].
      apply IH in Hab. discriminate.
Qed.

(** What it takes for a password to verify: a credential with a colon,
    text on both sides of it, and a hash that decodes to the very bytes
    of the digest of password and salt. *)
Lemma verifyPassword_true_iff (password stored : string) :
  verifyPassword password stored = true <->
  exists rest,
    Js.after_sep ":" stored = Some rest /\
    malformed_credential stored = false /\
    Js.Buffer_from_hex (Js.before_sep ":" rest) =
    Js.Buffer_from_hex (sha256_hex (password ++ Js.before_sep ":" stored)).
Proof.
  unfold verifyPassword, malformed_credential, hashPassword.
  rewrite (split_before_after ":" stored).
  destruct (Js.after_sep ":" stored) as [rest |]; simpl.
  - rewrite (split_before_after ":" rest); simpl. unfold is_empty.
    destruct (_ || _).
    + split; [discriminate | intros [r [_ [H _]]]; discriminate].
    + destruct (Js.timingSafeEqual _ _) as [[|] |] eqn:Hcmp.
      * split; [intros _ | reflexivity].
        exists rest. repeat split. now apply timingSafeEqual_true_iff.
      * split; [discriminate | intros [r [[= <-] [_ H]]]].
        apply timingSafeEqual_true_iff in H. congruence.
      * split; [discriminate | intros [r [[= <-] [_ H]]]].
        apply timingSafeEqual_true_iff in H. congruence.
  - rewrite orb_true_r. split; [discriminate | intros [r [H _]]; discriminate].
Qed.

(** The exception [timingSafeEqual] raises on buffers of different
    lengths is caught: such a credential is rejected, nothing escapes. *)
Lemma verifyPassword_length_mismatch (password stored rest : string) :
  Js.after_sep ":" stored = Some rest ->
  List.length (Js.Buffer_from_hex (Js.before_sep ":" rest)) <>
  List.length (Js.Buffer_from_hex (sha256_hex (password ++ Js.before_sep ":" stored))) ->
  verifyPassword password stored = false.
Proof.
  intros Hrest Hlen.
  destruct (verifyPassword password stored) eqn:Hv; [| reflexivity].
  apply verifyPassword_true_iff in Hv. destruct Hv as [r [Hr [_ Heq]]].
  rewrite Hrest in Hr. injection Hr as <-. now rewrite Heq in Hlen.
Qed.

(** *** Lookups *)

Lemma filter_find {A} (p : A -> bool) (l : list A) :
  find p l = hd_error (filter p l).
Proof.
  induction l as [| x l IH]; simpl; [reflexivity |].
  destruct (p x); [reflexivity | exact IH].
Qed.

Lemma filter_nil_iff {A} (p : A -> bool) (l : list A) :
  filter p l = [] <-> forall x, In x l -> p x = false.
Proof.
  induction l as [| x l IH]; simpl.
  - split; [intros _ y [] | reflexivity].
  - destruct (p x) eqn:Hp.
    + split; [discriminate |].
      intros H. specialize (H x (or_introl eq_refl)). congruence.
    + rewrite IH. split.
      * intros H y [<- | Hy]; [exact Hp | now apply H].
      * intros H y Hy. apply H. now right.
Qed.

Lemma user_with_email_none (e : string) (w : World) :
  user_with_email e w = None <->
  forall u, In u (users w) -> User.email u <> e.
Proof.
  unfold user_with_email. rewrite filter_find.
  destruct (filter _ (users w)) as [| u0 rest] eqn:Hf; simpl.
  - split; [intros _ | reflexivity].
    intros u Hu. apply (proj1 (filter_nil_iff _ _) Hf) in Hu.
    now apply String.eqb_neq.
  - split; [discriminate |]. intros H. exfalso.
    assert (Hin : In u0 (filter (fun u => String.eqb (User.email u) e) (users w)))
      by (rewrite Hf; now left).
    apply filter_In in Hin. destruct Hin as [Hin Heq].
    apply String.eqb_eq in Heq. exact (H u0 Hin Heq).
Qed.

(** *** Login *)

Lemma loginUser_unfold (input : LoginUserInput.t) (w : World) :
  loginUser input w =
  match user_with_email (LoginUserInput.email input) w with
  | None => (Throws InvalidCredentials, logged "User login failed:" InvalidCredentials w)
  | Some user =>
      if verifyPassword (LoginUserInput.password input) (User.password_hash user)
      then (Returns (AuthResponse.mk (public_user user) None), w)
      else (Throws InvalidCredentials, logged "User login failed:" InvalidCredentials w)
  end.
Proof.
  unfold user_with_email. rewrite filter_find.
  unfold loginUser, log_and_rethrow, try_catch, bind, select_users.
  destruct (filter _ (users w)) as [| user rest]; simpl.
  - reflexivity.
  - destruct (verifyPassword _ _); reflexivity.
Qed.

(** C4. A login for an email nobody registered and a login for a
    registered email whose password does not verify both throw, and the
    caller cannot tell them apart: the same error, with the same message
    ("Invalid email or password"), and the same trace on the console. *)
Theorem loginUser_failures_indistinguishable
    (w : World) (unknown wrong : LoginUserInput.t) (user : User.t) :
  (forall u, In u (users w) -> User.email u <> LoginUserInput.email unknown) ->
  user_with_email (LoginUserInput.email wrong) w = Some user ->
  verifyPassword (LoginUserInput.password wrong) (User.password_hash user) = false ->
  loginUser unknown w =
    (Throws (Error "Invalid email or password"),
     logged "User login failed:" (Error "Invalid email or password") w) /\
  loginUser wrong w = loginUser unknown w.
Proof.
  intros Hunknown Hfound Hwrong.
  rewrite !loginUser_unfold.
  apply user_with_email_none in Hunknown.
  rewrite Hunknown, Hfound, Hwrong. split; reflexivity.
Qed.

(** C8. A stored credential that is malformed (no colon separator, or an
    empty salt or hash around it) never verifies, whatever the password,
    and a login against it ends in the ordinary InvalidCredentials
    failure instead of an unhandled exception. *)
Theorem malformed_credential_rejected
    (w : World) (input : LoginUserInput.t) (user : User.t) :
  user_with_email (LoginUserInput.email input) w = Some user ->
  malformed_credential (User.password_hash user) = true ->
  (forall password, verifyPassword password (User.password_hash user) = false) /\
  loginUser input w =
    (Throws InvalidCredentials, logged "User login failed:" InvalidCredentials w).
Proof.
  intros Hfound Hbad. split.
  - intros password. now apply verifyPassword_malformed.
  - rewrite loginUser_unfold, Hfound.
    now rewrite (verifyPassword_malformed _ _ Hbad).
Qed.

Lemma missing_separator_malformed (stored : string) :
  ~ In ":"%char (list_ascii_of_string stored) ->
  malformed_credential stored = true.
Proof.
  intros H. unfold malformed_credential.
  now rewrite (proj2 (after_sep_none_iff ":" stored) H).
Qed.

(** *** Registration *)

Lemma find_none_existsb {A} (p : A -> bool) (l : list A) :
  find p l = None -> existsb p l = false.
Proof.
  induction l as [| x l IH]; simpl; [reflexivity |].
  destruct (p x); [discriminate | exact IH].
Qed.

Lemma find_app_last {A} (p : A -> bool) (l : list A) (x : A) :
  find p l = None -> p x = true -> find p (l ++ [x]) = Some x.
Proof.
  induction l as [| y l IH]; simpl; intros Hnone Hx.
  - now rewrite Hx.
  - destruct (p y); [discriminate | now apply IH].
Qed.

Lemma registerUser_unfold (now : Z) (entropy : list N)
    (input : RegisterUserInput.t) (w : World) :
  registerUser now entropy input w =
  match user_with_email (RegisterUserInput.email input) w with
  | Some _ =>
      (Throws DuplicateEmail, logged "User registration failed:" DuplicateEmail w)
  | None =>
      let row := User.mk (users_seq w + 1) (RegisterUserInput.email input)
                   (Bun_password_hash (RegisterUserInput.password input) 10 entropy)
                   now in
      (Returns (AuthResponse.mk (public_user row) None),
       with_users w (users w ++ [row]) (users_seq w + 1))
  end.
Proof.
  destruct (user_with_email _ w) as [u |] eqn:Hfind.
  - unfold user_with_email in Hfind. rewrite filter_find in Hfind.
    unfold registerUser, log_and_rethrow, try_catch, bind, select_users.
    destruct (filter _ (users w)); [discriminate | reflexivity].
  - pose proof (find_none_existsb _ _ Hfind) as Hex.
    unfold user_with_email in Hfind. rewrite filter_find in Hfind.
    unfold registerUser, log_and_rethrow, try_catch, bind, select_users.
    destruct (filter _ (users w)); [| discriminate].
    unfold insert_user. simpl. rewrite Hex. reflexivity.
Qed.


(** *** What registration stores, and what login makes of it *)

Lemma bcrypt_char_not_colon (digit : N) : bcrypt_char digit <> ":"%char.
Proof.
  unfold bcrypt_char.
  destruct (nth_in_or_default (N.to_nat (digit mod 64)) bcrypt_alphabet "."%char)
    as [Hin | ->]; [| discriminate].
  revert Hin. generalize (nth (N.to_nat (digit mod 64)) bcrypt_alphabet "."%char).
  intros c Hin Hc. subst c. revert Hin. vm_compute.
  intros H. repeat (destruct H as [H | H]; [discriminate |]). exact H.
Qed.

Lemma Bun_password_hash_no_colon (password : string) (entropy : list N) :
  ~ In ":"%char (list_ascii_of_string (Bun_password_hash password 10 entropy)).
Proof.
  unfold Bun_password_hash.
  generalize (bcrypt_digits password 10 entropy). intros digits.
  change ("$2b$" ++ two_digits 10 ++ "$" ++
          string_of_list_ascii (map bcrypt_char digits))
    with ("$2b$10$" ++ string_of_list_ascii (map bcrypt_char digits)).
  simpl. rewrite list_ascii_of_string_of_list_ascii.
  intros H. repeat (destruct H as [H | H]; [discriminate |]).
  apply in_map_iff in H. destruct H as [d [Hd _]].
  exact (bcrypt_char_not_colon d Hd).
Qed.

(** C1 (what the handlers do). Whenever registration succeeds, the
    credential it stored is a bcrypt string, which has no colon; the
    login handler reads credentials as salt, colon, hash, so a login with
    the very email and password just registered throws
    InvalidCredentials. *)
Theorem register_then_login_rejected
    (w w' : World) (now : Z) (entropy : list N)
    (input : RegisterUserInput.t) (response : AuthResponse.t) :
  registerUser now entropy input w = (Returns response, w') ->
  loginUser (LoginUserInput.mk (RegisterUserInput.email input)
                               (RegisterUserInput.password input)) w' =
    (Throws (Error "Invalid email or password"),
     logged "User login failed:" (Error "Invalid email or password") w').
Proof.
  rewrite registerUser_unfold.
  destruct (user_with_email (RegisterUserInput.email input) w) eqn:Hfind;
    [discriminate |].
  cbv zeta. intros Heq. injection Heq as _ <-.
  rewrite loginUser_unfold. cbn [LoginUserInput.email LoginUserInput.password].
  unfold user_with_email, with_users. cbn [users].
  unfold user_with_email in Hfind.
  rewrite (find_app_last _ _ _ Hfind) by (cbn [User.email]; apply String.eqb_refl).
  cbn [User.password_hash].
  rewrite verifyPassword_malformed; [reflexivity |].
  apply missing_separator_malformed, Bun_password_hash_no_colon.
Qed.

(** *** Listing *)

Lemma insert_asc_perm {A} (key : A -> Z) (x : A) (l : list A) :
  Permutation (x :: l) (insert_asc key x l).
Proof.
  induction l as [| y l IH]; simpl.
  - apply Permutation_refl.
  - destruct (key x <=? key y).
    + apply Permutation_refl.
    + apply perm_trans with (y :: x :: l); [apply perm_swap |].
      now apply perm_skip.
Qed.

Lemma sort_asc_perm {A} (key : A -> Z) (l : list A) :
  Permutation l (sort_asc key l).
Proof.
  induction l as [| x l IH]; simpl.
  - apply perm_nil.
  - apply perm_trans with (x :: sort_asc key l).
    + now apply perm_skip.
    + apply insert_asc_perm.
Qed.

Lemma insert_asc_sorted {A} (key : A -> Z) (x : A) (l : list A) :
  StronglySorted (fun a b => key a <= key b) l ->
  StronglySorted (fun a b => key a <= key b) (insert_asc key x l).
Proof.
  induction 1 as [| y l Hs IH Hy]; simpl.
  - constructor; constructor.
  - destruct (Z.leb_spec (key x) (key y)) as [Hle | Hgt].
    + constructor.
      * now constructor.
      * constructor; [exact Hle |].
        eapply Forall_impl; [| exact Hy]. intros b Hb. simpl in Hb. lia.
    + constructor; [exact IH |].
      apply (Permutation_Forall (insert_asc_perm key x l)).
      constructor; [lia | exact Hy].
Qed.

Lemma sort_asc_sorted {A} (key : A -> Z) (l : list A) :
  StronglySorted (fun a b => key a <= key b) (sort_asc key l).
Proof.
  induction l as [| x l IH]; simpl.
  - constructor.
  - now apply insert_asc_sorted.
Qed.

Lemma sort_asc_order_by {A} (key : A -> Z) (l : list A) :
  order_by_asc key l (sort_asc key l).
Proof. split; [apply sort_asc_perm | apply sort_asc_sorted]. Qed.

Lemma NoDup_map_inj {A B} (f : A -> B) (l : list A) (a b : A) :
  NoDup (map f l) -> In a l -> In b l -> f a = f b -> a = b.
Proof.
  induction l as [| x l IH]; simpl; [intros _ [] |].
  intros Hnd Ha Hb Hf. inversion Hnd as [| ? ? Hx Hl]; subst.
  destruct Ha as [-> | Ha], Hb as [-> | Hb].
  - reflexivity.
  - exfalso. apply Hx. rewrite Hf. now apply in_map.
  - exfalso. apply Hx. rewrite <- Hf. now apply in_map.
  - now apply IH.
Qed.

(** With pairwise distinct keys, the ascending order is unique. *)
Lemma order_by_asc_unique {A} (key : A -> Z) (rows r1 r2 : list A) :
  NoDup (map key rows) ->
  order_by_asc key rows r1 -> order_by_asc key rows r2 -> r1 = r2.
Proof.
  intros Hnd [Hp1 Hs1] [Hp2 Hs2].
  assert (Hnd1 : NoDup (map key r1)).
  { eapply Permutation_NoDup; [| exact Hnd]. now apply Permutation_map. }
  assert (Hp : Permutation r1 r2)
    by (eapply perm_trans; [apply Permutation_sym; exact Hp1 | exact Hp2]).
  clear Hp1 Hp2 Hnd rows. revert r2 Hs2 Hp.
  induction Hs1 as [| a l1 Hs1 IH Ha]; intros r2 Hs2 Hp.
  - now apply Permutation_nil in Hp.
  - destruct r2 as [| b l2].
    + apply Permutation_sym, Permutation_nil in Hp. discriminate.
    + inversion Hs2 as [| ? ? Hs2' Hb]; subst.
      assert (Hab : a = b).
      { assert (Ha2 : In a (b :: l2))
          by (eapply Permutation_in; [exact Hp | now left]).
        assert (Hb1 : In b (a :: l1))
          by (eapply Permutation_in; [apply Permutation_sym; exact Hp | now left]).
        destruct Ha2 as [Heq | Ha2]; [now symmetry |].
        destruct Hb1 as [Heq | Hb1]; [exact Heq |].
        apply (NoDup_map_inj key (a :: l1)); [exact Hnd1 | now left | now right |].
        rewrite Forall_forall in Ha, Hb.
        specialize (Ha b Hb1). specialize (Hb a Ha2). lia. }
      subst b. f_equal. apply IH.
      * now inversion Hnd1.
      * exact Hs2'.
      * now apply Permutation_cons_inv in Hp.
Qed.

(** An ascending list in which a key occurs twice has two neighbours with
    one key, and stays ascending when they change places. *)
Lemma sorted_equal_keys_adjacent {A} (key : A -> Z) (l : list A) :
  StronglySorted (fun a b => key a <= key b) l ->
  ~ NoDup (map key l) ->
  exists l1 a b l2, l = (l1 ++ a :: b :: l2)%list /\ key a = key b.
Proof.
  induction 1 as [| x l Hs IH Hx]; intros Hdup.
  - exfalso. apply Hdup. constructor.
  - destruct (in_dec Z.eq_dec (key x) (map key l)) as [Hin | Hnin].
    + destruct l as [| y l']; [destruct Hin |].
      exists [], x, y, l'. split; [reflexivity |].
      apply in_map_iff in Hin. destruct Hin as [z [Hz Hzin]].
      inversion Hx as [| ? ? Hxy Hxl]; subst.
      destruct Hzin as [-> | Hzin]; [now symmetry |].
      inversion Hs as [| ? ? _ Hy]; subst.
      rewrite Forall_forall in Hy. specialize (Hy z Hzin). lia.
    + assert (Hrest : ~ NoDup (map key l)).
      { intros Hnd. apply Hdup. simpl. now constructor. }
      destruct (IH Hrest) as (l1 & a & b & l2 & -> & Hab).
      exists (x :: l1), a, b, l2. split; [reflexivity | exact Hab].
Qed.

Lemma sorted_swap_equal {A} (key : A -> Z) (l1 l2 : list A) (a b : A) :
  key a = key b ->
  StronglySorted (fun a b => key a <= key b) (l1 ++ a :: b :: l2) ->
  StronglySorted (fun a b => key a <= key b) (l1 ++ b :: a :: l2).
Proof.
  intros Hab. induction l1 as [| x l1 IH]; simpl; intros Hs.
  - inversion Hs as [| ? ? Hs' Ha]; subst.
    inversion Hs' as [| ? ? Hs'' Hb]; subst.
    inversion Ha as [| ? ? _ Hal]; subst.
    constructor.
    + now constructor.
    + constructor; [lia | exact Hb].
  - inversion Hs as [| ? ? Hs' Hx]; subst. constructor.
    + now apply IH.
    + eapply Permutation_Forall; [| exact Hx].
      apply Permutation_app_head, perm_swap.
Qed.

(** When two of the distinct rows share a key, the query allows two
    different results. *)
Lemma order_by_asc_two {A} (key : A -> Z) (rows : list A) :
  NoDup rows -> ~ NoDup (map key rows) ->
  exists r1 r2,
    order_by_asc key rows r1 /\ order_by_asc key rows r2 /\ r1 <> r2.
Proof.
  intros Hrows Hdup.
  destruct (sort_asc_order_by key rows) as [Hperm Hsorted].
  assert (Hdup' : ~ NoDup (map key (sort_asc key rows))).
  { intros Hnd. apply Hdup.
    eapply Permutation_NoDup; [| exact Hnd].
    apply Permutation_map, Permutation_sym, Hperm. }
  destruct (sorted_equal_keys_adjacent key _ Hsorted Hdup')
    as (l1 & a & b & l2 & Heq & Hab).
  rewrite Heq in Hperm, Hsorted.
  exists (l1 ++ a :: b :: l2)%list, (l1 ++ b :: a :: l2)%list.
  split; [split; assumption |]. split.
  - split.
    + eapply perm_trans; [exact Hperm |]. apply Permutation_app_head, perm_swap.
    + now apply sorted_swap_equal.
  - intros Hsame. apply app_inv_head in Hsame. injection Hsame as Hsame _.
    assert (Hnd : NoDup (l1 ++ a :: b :: l2))
      by (eapply Permutation_NoDup; [exact Hperm | exact Hrows]).
    apply NoDup_app_remove_l in Hnd. inversion Hnd as [| ? ? Hnotin _]; subst.
    apply Hnotin. now left.
Qed.

Lemma NoDup_map_filter {Row Key} (key : Row -> Key) (keep : Row -> bool)
    (rows : list Row) (Hnd : NoDup (map key rows)) :
  NoDup (map key (filter keep rows)).
Proof.
  revert Hnd. induction rows as [| r rows IH]; simpl; intros Hnd; [constructor |].
  inversion Hnd as [| ? ? Hr Hrest]; subst.
  destruct (keep r); simpl; [| now apply IH].
  constructor; [| now apply IH].
  intros Hin. apply Hr. apply in_map_iff in Hin.
  destruct Hin as [r' [Hkey Hin']]. apply filter_In in Hin'.
  apply in_map_iff. exists r'. split; [exact Hkey | apply Hin'].
Qed.

(** The outcomes of the listing, by the owner id: any ascending order of
    the owner's rows, or the database's error, logged. *)
Lemma getUserTasks_unfold (input : GetUserTasksInput.t) (w : World)
    (out : Outcome (list Task.t) * World) :
  let owner := GetUserTasksInput.user_id input in
  getUserTasks input w out <->
  if int4 owner
  then exists results,
         order_by_asc Task.due_date (filter (owned_by owner) (tasks w)) results /\
         out = (Returns results, w)
  else out = (Throws DatabaseError,
              logged "Get user tasks failed:" DatabaseError w).
Proof.
  intros owner. unfold getUserTasks, select_tasks_order_by, select_tasks.
  fold owner. cbn [tasks_bound].
  destruct (int4 owner).
  - split.
    + intros [run [[results [Horder ->]] ->]]. exists results. split; [exact Horder | reflexivity].
    + intros [results [Horder ->]]. exists (Returns results, w). split; [| reflexivity].
      exists results. split; [exact Horder | reflexivity].
  - split.
    + intros [run [-> ->]]. reflexivity.
    + intros ->. exists (Throws DatabaseError, w). split; reflexivity.
Qed.

(** C2 (as the handler has it). For an owner id in the range of the id
    column the handler returns, and what it returns is exactly the stored
    tasks of that owner (each once per stored row), in ascending due
    date; the list is empty when the owner has no task or does not exist.
    For an owner id outside the range the database refuses the query and
    the handler throws its error. The query names no second sort key:
    with ids a primary key, the order of the result is determined exactly
    when the owner's due dates are pairwise distinct. *)
Theorem getUserTasks_by_due_date (w : World) (input : GetUserTasksInput.t) :
  let owner := GetUserTasksInput.user_id input in
  let owned := filter (owned_by owner) (tasks w) in
  getUserTasks input w (getUserTasks_run input w) /\
  (int4 owner = true ->
   forall out, getUserTasks input w out ->
     exists results,
       out = (Returns results, w) /\
       Permutation owned results /\
       (forall t, In t results <-> In t (tasks w) /\ Task.user_id t = owner) /\
       StronglySorted by_due_date results /\
       ((forall t, In t (tasks w) -> Task.user_id t <> owner) -> results = [])) /\
  (int4 owner = false ->
   forall out, getUserTasks input w out ->
     out = (Throws DatabaseError,
            logged "Get user tasks failed:" DatabaseError w)) /\
  (int4 owner = true ->
   NoDup (map Task.id (tasks w)) ->
   ((forall out1 out2,
       getUserTasks input w out1 -> getUserTasks input w out2 -> out1 = out2) <->
    NoDup (map Task.due_date owned))).
Proof.
  intros owner owned.
  pose proof (getUserTasks_unfold input w) as Hu. cbv zeta in Hu. fold owner in Hu.
  split; [| split; [| split]].
  - apply Hu. unfold getUserTasks_run, log_and_rethrow, try_catch, bind, select_tasks.
    fold owner. cbn [tasks_bound]. destruct (int4 owner).
    + exists (sort_asc Task.due_date owned).
      split; [apply sort_asc_order_by | reflexivity].
    + reflexivity.
  - intros Hrange out Hout. apply Hu in Hout. rewrite Hrange in Hout.
    destruct Hout as [results [[Hperm Hsorted] ->]]. exists results.
    split; [reflexivity |]. split; [exact Hperm |]. split; [| split].
    + intros t. split.
      * intros Hin. apply (Permutation_in _ (Permutation_sym Hperm)) in Hin.
        apply filter_In in Hin. destruct Hin as [Hin Hown].
        split; [exact Hin | now apply Z.eqb_eq].
      * intros [Hin Hown]. apply (Permutation_in _ Hperm).
        apply filter_In. split; [exact Hin | now apply Z.eqb_eq].
    + exact Hsorted.
    + intros Hnone. apply Permutation_nil.
      assert (Hempty : filter (owned_by owner) (tasks w) = []).
      { apply filter_nil_iff. intros t Hin. apply Z.eqb_neq. now apply Hnone. }
      rewrite Hempty in Hperm. exact Hperm.
  - intros Hrange out Hout. apply Hu in Hout. rewrite Hrange in Hout. exact Hout.
  - intros Hrange Hkey. split.
    + intros Hsame.
      destruct (ListDec.NoDup_dec Z.eq_dec (map Task.due_date owned))
        as [Hnd | Hdup]; [exact Hnd | exfalso].
      assert (Hrows : NoDup owned).
      { apply (NoDup_map_inv Task.id). now apply NoDup_map_filter. }
      destruct (order_by_asc_two Task.due_date owned Hrows Hdup)
        as (r1 & r2 & H1 & H2 & Hdiff).
      apply Hdiff.
      assert (Heq : (Returns r1, w) = (Returns r2, w)).
      { apply Hsame; apply Hu; rewrite Hrange.
        - exists r1. split; [exact H1 | reflexivity].
        - exists r2. split; [exact H2 | reflexivity]. }
      now injection Heq.
    + intros Hnd out1 out2 H1 H2. apply Hu in H1, H2. rewrite Hrange in H1, H2.
      destruct H1 as [r1 [H1 ->]], H2 as [r2 [H2 ->]].
      now rewrite (order_by_asc_unique _ _ _ _ Hnd H1 H2).
Qed.

(** *** Updating *)

Lemma keys_length_zero (d : UpdateData) :
  Object_keys_length d = 0%nat -> d = no_updateData.
Proof.
  destruct d as [[t |] [de |] [du |] [c |]]; unfold Object_keys_length; simpl;
    intros H; try discriminate H; reflexivity.
Qed.

Lemma apply_set_nothing (t : Task.t) : apply_set no_updateData t = t.
Proof. now destruct t. Qed.

Lemma build_updateData_fields (input : UpdateTaskInput.t) :
  build_updateData input =
  mkUpdateData (UpdateTaskInput.title input) (UpdateTaskInput.description input)
    (UpdateTaskInput.due_date input) (UpdateTaskInput.completed input).
Proof.
  unfold build_updateData.
  destruct (UpdateTaskInput.title input), (UpdateTaskInput.description input),
    (UpdateTaskInput.due_date input), (UpdateTaskInput.completed input);
    reflexivity.
Qed.

Lemma map_if_id {A} (p : A -> bool) (l : list A) :
  map (fun t => if p t then t else t) l = l.
Proof.
  induction l as [| x l IH]; simpl; [reflexivity |].
  rewrite IH. now destruct (p x).
Qed.

Lemma with_tasks_same (w : World) : with_tasks w (tasks w) (tasks_seq w) = w.
Proof. now destruct w. Qed.

Lemma updateTask_unfold (input : UpdateTaskInput.t) (w : World) :
  let id := UpdateTaskInput.id input in
  let d := build_updateData input in
  updateTask input w =
  match task_with_id id w with
  | None =>
      let e := lookup_failure (int4 id) (TaskNotFound_by_id id) in
      (Throws e, logged "Task update failed:" e w)
  | Some existing =>
      if set_ok timestamp_ok d
      then
        (Returns (apply_set d existing),
         with_tasks w (map (fun t => if has_id id t then apply_set d t else t) (tasks w))
           (tasks_seq w))
      else (Throws DatabaseError, logged "Task update failed:" DatabaseError w)
  end.
Proof.
  intros id d. unfold task_with_id, lookup_failure.
  unfold updateTask, log_and_rethrow, try_catch, bind, select_tasks, update_tasks.
  fold id. fold d. cbn [tasks_bound].
  destruct (int4 id); [| reflexivity].
  rewrite filter_find.
  change (tasks_where (tasks_id_eq id)) with (has_id id).
  destruct (filter (has_id id) (tasks w)) as [| existing rest] eqn:Hf; simpl.
  - reflexivity.
  - destruct (Nat.eqb_spec (Object_keys_length d) 0) as [Hz | Hnz].
    + apply keys_length_zero in Hz. rewrite Hz.
      rewrite apply_set_nothing. unfold ret.
      change (set_ok timestamp_ok no_updateData) with true. cbv iota. f_equal.
      transitivity (with_tasks w (tasks w) (tasks_seq w));
        [symmetry; apply with_tasks_same |].
      f_equal. symmetry.
      erewrite map_ext; [apply (map_if_id (has_id id)) |].
      intros t. simpl. now rewrite apply_set_nothing.
    + destruct (set_ok timestamp_ok d); [rewrite Hf |]; reflexivity.
Qed.

Lemma task_with_id_none (id : Z) (w : World) :
  int4 id = true ->
  (task_with_id id w = None <-> forall t, In t (tasks w) -> Task.id t <> id).
Proof.
  intros Hrange. unfold task_with_id. rewrite Hrange. split.
  - intros H t Hin Heq. apply (find_none _ _ H) in Hin.
    unfold has_id in Hin. apply Z.eqb_neq in Hin. contradiction.
  - intros H. destruct (find (has_id id) (tasks w)) as [t |] eqn:Hf; [| reflexivity].
    apply find_some in Hf. destruct Hf as [Hin Hid].
    apply Z.eqb_eq in Hid. exfalso. exact (H t Hin Hid).
Qed.

Lemma task_with_id_some (id : Z) (w : World) (t : Task.t) :
  task_with_id id w = Some t ->
  int4 id = true /\ find (has_id id) (tasks w) = Some t.
Proof.
  unfold task_with_id. destruct (int4 id); [now split | discriminate].
Qed.

Lemma find_map_commute {A} (p : A -> bool) (f : A -> A) (l : list A) :
  (forall x, p (f x) = p x) -> find p (map f l) = option_map f (find p l).
Proof.
  intros Hp. induction l as [| x l IH]; simpl; [reflexivity |].
  rewrite Hp. destruct (p x); [reflexivity | exact IH].
Qed.

Lemma reassign_tasks_commute (g : Z -> Z) (id : Z) (d : UpdateData) (l : list Task.t) :
  map (fun t => if has_id id t then apply_set d t else t) (map (set_owner g) l) =
  map (set_owner g) (map (fun t => if has_id id t then apply_set d t else t) l).
Proof.
  rewrite !map_map. apply map_ext. intros t.
  unfold has_id. cbn [set_owner Task.id].
  destruct (Task.id t =? id); reflexivity.
Qed.

(** What the handler sets is what the input carries. *)
Lemma apply_set_patched (input : UpdateTaskInput.t) (t : Task.t) :
  apply_set (build_updateData input) t = patched input t.
Proof. now rewrite build_updateData_fields. Qed.

Lemma set_ok_accepted (input : UpdateTaskInput.t) :
  set_ok timestamp_ok (build_updateData input) = update_accepted input.
Proof. now rewrite build_updateData_fields. Qed.

Lemma updateTask_found (input : UpdateTaskInput.t) (w : World) (existing : Task.t) :
  let id := UpdateTaskInput.id input in
  task_with_id id w = Some existing ->
  updateTask input w =
  if update_accepted input
  then
    (Returns (patched input existing),
     with_tasks w (map (fun t => if Task.id t =? id then patched input t else t) (tasks w))
       (tasks_seq w))
  else (Throws DatabaseError, logged "Task update failed:" DatabaseError w).
Proof.
  intros id Hfound.
  pose proof (updateTask_unfold input w) as Hu. cbv zeta in Hu. fold id in Hu.
  rewrite Hu, Hfound, set_ok_accepted.
  destruct (update_accepted input); [| reflexivity].
  rewrite apply_set_patched. f_equal. f_equal.
  apply map_ext. intros t. unfold has_id. now rewrite apply_set_patched.
Qed.

(** C3 (as the handler has it). The update handler looks the task up by
    id alone. For an id in the range of the id column it throws "Task
    with id N not found" exactly when no stored task has that id; for an
    id outside the range the database refuses the lookup and the handler
    throws its error. For a stored task and values the database takes it
    returns the task with the input's fields set, and writes them,
    whoever owns the task; values the database refuses make it throw the
    database's error. The input has no owner field, and the handler never
    reads the owner column: handing every task to other owners changes
    nothing in what the call does but the owner shown in the result. *)
Theorem updateTask_by_id_only (w : World) (input : UpdateTaskInput.t) :
  let id := UpdateTaskInput.id input in
  let not_found := Error ("Task with id " ++ Js.number_toString id ++ " not found") in
  (int4 id = true ->
   ((forall t, In t (tasks w) -> Task.id t <> id) <->
    updateTask input w =
      (Throws not_found, logged "Task update failed:" not_found w))) /\
  (int4 id = false ->
   updateTask input w =
     (Throws DatabaseError, logged "Task update failed:" DatabaseError w)) /\
  (forall existing,
     task_with_id id w = Some existing ->
     (update_accepted input = true ->
      updateTask input w =
        (Returns
           (Task.mk (Task.id existing) (Task.user_id existing)
              (or_else (UpdateTaskInput.title input) (Task.title existing))
              (or_else (UpdateTaskInput.description input) (Task.description existing))
              (or_else (UpdateTaskInput.due_date input) (Task.due_date existing))
              (or_else (UpdateTaskInput.completed input) (Task.completed existing))
              (Task.created_at existing)),
         with_tasks w
           (map (fun t => if Task.id t =? id then patched input t else t) (tasks w))
           (tasks_seq w))) /\
     (update_accepted input = false ->
      updateTask input w =
        (Throws DatabaseError, logged "Task update failed:" DatabaseError w))) /\
  (forall g,
     updateTask input (reassign g w) =
     (map_outcome (set_owner g) (fst (updateTask input w)),
      reassign g (snd (updateTask input w)))).
Proof.
  intros id not_found.
  pose proof (updateTask_unfold input w) as Hu. cbv zeta in Hu. fold id in Hu.
  split; [| split; [| split]].
  - intros Hrange. rewrite <- (task_with_id_none id w Hrange).
    rewrite Hu. unfold lookup_failure. rewrite Hrange. split.
    + intros ->. reflexivity.
    + destruct (task_with_id id w); [| reflexivity].
      destruct (set_ok timestamp_ok (build_updateData input)); discriminate.
  - intros Hrange. rewrite Hu. unfold task_with_id, lookup_failure.
    rewrite Hrange. reflexivity.
  - intros existing Hfound.
    rewrite (updateTask_found input w existing Hfound). fold id. split.
    + intros ->. reflexivity.
    + intros ->. reflexivity.
  - intros g.
    pose proof (updateTask_unfold input (reassign g w)) as Hg.
    cbv zeta in Hg. fold id in Hg. rewrite Hu, Hg.
    unfold task_with_id, reassign, with_tasks. cbn [tasks tasks_seq].
    destruct (int4 id); [| reflexivity].
    rewrite find_map_commute by reflexivity.
    destruct (find (has_id id) (tasks w)) as [existing |];
      cbn [option_map fst snd map_outcome]; [| reflexivity].
    destruct (set_ok timestamp_ok (build_updateData input));
      cbn [fst snd map_outcome]; [| reflexivity].
    rewrite reassign_tasks_commute. f_equal.
Qed.

Lemma apply_set_has_id (id : Z) (d : UpdateData) (t : Task.t) :
  has_id id (apply_set d t) = has_id id t.
Proof. reflexivity. Qed.

Lemma find_map_if (id : Z) (d : UpdateData) (l : list Task.t) :
  find (has_id id) (map (fun t => if has_id id t then apply_set d t else t) l) =
  option_map (apply_set d) (find (has_id id) l).
Proof.
  induction l as [| x l IH]; simpl; [reflexivity |].
  destruct (has_id id x) eqn:Hx.
  - now rewrite apply_set_has_id, Hx.
  - now rewrite Hx.
Qed.

Lemma others_map_if (id : Z) (d : UpdateData) (l : list Task.t) :
  filter (fun t => negb (has_id id t))
    (map (fun t => if has_id id t then apply_set d t else t) l) =
  filter (fun t => negb (has_id id t)) l.
Proof.
  induction l as [| x l IH]; simpl; [reflexivity |].
  destruct (has_id id x) eqn:Hx.
  - rewrite apply_set_has_id, Hx. exact IH.
  - rewrite Hx. simpl. now rewrite IH.
Qed.

(** C6. For a stored task and every update input, whatever the call
    does, every field the input leaves out, and the id, owner and
    creation time, are afterwards as before in the task the store holds
    under that id, and the rows with other ids and the users are
    untouched. When the database takes the values sent, the update
    returns, and in the task it returns every field the input carries
    has the input's value; the returned task is what the store then
    holds. An update with a value the database refuses throws the
    database's error and changes no row at all. With no optional field
    the call returns the task as it was and the store is identical. *)
Theorem updateTask_frame
    (w : World) (input : UpdateTaskInput.t) (existing : Task.t) :
  task_with_id (UpdateTaskInput.id input) w = Some existing ->
  (exists after,
     task_with_id (UpdateTaskInput.id input) (snd (updateTask input w)) = Some after /\
     (UpdateTaskInput.title input = None ->
      Task.title after = Task.title existing) /\
     (UpdateTaskInput.description input = None ->
      Task.description after = Task.description existing) /\
     (UpdateTaskInput.due_date input = None ->
      Task.due_date after = Task.due_date existing) /\
     (UpdateTaskInput.completed input = None ->
      Task.completed after = Task.completed existing) /\
     Task.id after = Task.id existing /\
     Task.user_id after = Task.user_id existing /\
     Task.created_at after = Task.created_at existing /\
     filter (fun t => negb (Task.id t =? UpdateTaskInput.id input))
       (tasks (snd (updateTask input w))) =
       filter (fun t => negb (Task.id t =? UpdateTaskInput.id input)) (tasks w) /\
     users (snd (updateTask input w)) = users w) /\
  (update_accepted input = true ->
   exists updated w',
     updateTask input w = (Returns updated, w') /\
     Task.title updated =
       match UpdateTaskInput.title input with
       | Some v => v | None => Task.title existing end /\
     Task.description updated =
       match UpdateTaskInput.description input with
       | Some v => v | None => Task.description existing end /\
     Task.due_date updated =
       match UpdateTaskInput.due_date input with
       | Some v => v | None => Task.due_date existing end /\
     Task.completed updated =
       match UpdateTaskInput.completed input with
       | Some v => v | None => Task.completed existing end /\
     Task.id updated = Task.id existing /\
     Task.user_id updated = Task.user_id existing /\
     Task.created_at updated = Task.created_at existing /\
     task_with_id (UpdateTaskInput.id input) w' = Some updated) /\
  (update_accepted input = false ->
   exists w',
     updateTask input w = (Throws DatabaseError, w') /\
     tasks w' = tasks w /\ users w' = users w) /\
  (UpdateTaskInput.title input = None ->
   UpdateTaskInput.description input = None ->
   UpdateTaskInput.due_date input = None ->
   UpdateTaskInput.completed input = None ->
   updateTask input w = (Returns existing, w)).
Proof.
  intros Hfound.
  pose proof (updateTask_unfold input w) as Hu. cbv zeta in Hu.
  rewrite Hfound, set_ok_accepted in Hu. rewrite Hu. clear Hu.
  destruct (task_with_id_some _ _ _ Hfound) as [Hrange Hfind].
  assert (Hstored :
            task_with_id (UpdateTaskInput.id input)
              (with_tasks w
                 (map (fun t => if has_id (UpdateTaskInput.id input) t
                                then apply_set (build_updateData input) t else t)
                    (tasks w)) (tasks_seq w)) =
            Some (apply_set (build_updateData input) existing)).
  { unfold task_with_id. rewrite Hrange. cbn [tasks with_tasks].
    now rewrite find_map_if, Hfind. }
  refine (conj _ (conj _ (conj _ _))).
  - destruct (update_accepted input).
    + exists (apply_set (build_updateData input) existing). cbn [snd].
      split; [exact Hstored |].
      rewrite build_updateData_fields.
      refine (conj _ (conj _ (conj _ (conj _ (conj eq_refl (conj eq_refl
               (conj eq_refl (conj _ eq_refl)))))))).
      * intros Hnone. cbn. now rewrite Hnone.
      * intros Hnone. cbn. now rewrite Hnone.
      * intros Hnone. cbn. now rewrite Hnone.
      * intros Hnone. cbn. now rewrite Hnone.
      * cbn [tasks with_tasks]. apply others_map_if.
    + exists existing. cbn [snd].
      split; [exact Hfound |]. repeat split; reflexivity.
  - intros ->. eexists. eexists. split; [reflexivity |].
    split; [| split; [| split; [| split; [| split; [| split; [| split]]]]]];
      try exact Hstored; rewrite build_updateData_fields; reflexivity.
  - intros ->. eexists. split; [reflexivity |]. split; reflexivity.
  - intros Ht Hd Hdue Hc. unfold update_accepted. rewrite Ht, Hd, Hdue.
    cbn [andb]. rewrite build_updateData_fields, Ht, Hd, Hdue, Hc.
    fold no_updateData. rewrite apply_set_nothing. f_equal.
    transitivity (with_tasks w (tasks w) (tasks_seq w));
      [| apply with_tasks_same].
    f_equal. erewrite map_ext; [apply (map_if_id (has_id (UpdateTaskInput.id input))) |].
    intros t. simpl. now rewrite apply_set_nothing.
Qed.

(** *** Deleting and sharing *)

Lemma task_of_none (id owner : Z) (w : World) :
  int4 id = true -> int4 owner = true ->
  (task_of id owner w = None <->
   forall t, In t (tasks w) -> Task.id t = id -> Task.user_id t <> owner).
Proof.
  intros Hid Howner. unfold task_of. rewrite Hid, Howner. cbn [andb]. split.
  - intros H t Hin Hid' Hown. apply (find_none _ _ H) in Hin.
    unfold has_id_and_owner in Hin.
    rewrite (proj2 (Z.eqb_eq _ _) Hid'), (proj2 (Z.eqb_eq _ _) Hown) in Hin.
    discriminate.
  - intros H.
    destruct (find (has_id_and_owner id owner) (tasks w)) as [t |] eqn:Hf;
      [| reflexivity].
    apply find_some in Hf. destruct Hf as [Hin Hp].
    unfold has_id_and_owner in Hp. apply andb_true_iff in Hp.
    destruct Hp as [Hid' Hown]. apply Z.eqb_eq in Hid', Hown.
    exfalso. exact (H t Hin Hid' Hown).
Qed.

Lemma task_of_some (id owner : Z) (w : World) (t : Task.t) :
  task_of id owner w = Some t ->
  (int4 id = true /\ int4 owner = true) /\
  find (has_id_and_owner id owner) (tasks w) = Some t.
Proof.
  unfold task_of. destruct (int4 id), (int4 owner); cbn [andb];
    try discriminate. intros H. now split.
Qed.

Lemma deleteTask_unfold (input : DeleteTaskInput.t) (w : World) :
  let id := DeleteTaskInput.id input in
  let owner := DeleteTaskInput.user_id input in
  let p := has_id_and_owner id owner in
  deleteTask input w =
  match task_of id owner w with
  | None =>
      let e := lookup_failure (int4 id && int4 owner) TaskNotFound in
      (Throws e, logged "Task deletion failed:" e w)
  | Some _ =>
      (Returns (DeleteTaskResponse.mk true),
       with_tasks w (filter (fun t => negb (p t)) (tasks w)) (tasks_seq w))
  end.
Proof.
  intros id owner p. unfold task_of, lookup_failure.
  unfold deleteTask, log_and_rethrow, try_catch, bind, select_tasks, delete_tasks.
  fold id. fold owner. cbn [tasks_bound].
  destruct (int4 id && int4 owner); [| reflexivity].
  rewrite filter_find.
  subst p.
  change (tasks_where (tasks_and (tasks_id_eq id) (tasks_user_id_eq owner)))
    with (has_id_and_owner id owner).
  destruct (filter (has_id_and_owner id owner) (tasks w)); reflexivity.
Qed.

Lemma shareTask_unfold (input : ShareTaskInput.t) (w : World) :
  let id := ShareTaskInput.id input in
  let owner := ShareTaskInput.user_id input in
  shareTask input w =
  match task_of id owner w with
  | None =>
      let e := lookup_failure (int4 id && int4 owner) TaskNotFound in
      (Throws e, logged "Task sharing failed:" e w)
  | Some task =>
      (Returns (ShareTaskResponse.mk
                  (shareText_of (Task.title task) (Task.description task))), w)
  end.
Proof.
  intros id owner. unfold task_of, lookup_failure.
  unfold shareTask, log_and_rethrow, try_catch, bind, select_tasks.
  fold id. fold owner. cbn [tasks_bound].
  destruct (int4 id && int4 owner); [| reflexivity].
  rewrite filter_find.
  change (tasks_where (tasks_and (tasks_id_eq id) (tasks_user_id_eq owner)))
    with (has_id_and_owner id owner).
  destruct (filter _ (tasks w)); reflexivity.
Qed.

Lemma find_filter_negb {A} (p : A -> bool) (l : list A) :
  find p (filter (fun x => negb (p x)) l) = None.
Proof.
  induction l as [| x l IH]; simpl; [reflexivity |].
  destruct (p x) eqn:Hp; simpl; [exact IH | now rewrite Hp].
Qed.

(** C5 (as the handlers have it). For an id and an owner in the range of
    the id columns, delete and share throw "Task not found or access
    denied" exactly when no stored task has both the given id and the
    given owner: an id nobody has and an id that belongs to somebody else
    are one and the same failure. When the id or the owner is outside the
    range, the database refuses the lookup and both handlers throw its
    error. After a delete that returned, the same delete again throws
    "Task not found or access denied". *)
Theorem delete_share_not_found (w : World) (id owner : Z) :
  let absent :=
    forall t, In t (tasks w) -> Task.id t = id -> Task.user_id t <> owner in
  let not_found := Error "Task not found or access denied" in
  (int4 id = true -> int4 owner = true ->
   (absent <->
    deleteTask (DeleteTaskInput.mk id owner) w =
      (Throws not_found, logged "Task deletion failed:" not_found w)) /\
   (absent <->
    shareTask (ShareTaskInput.mk id owner) w =
      (Throws not_found, logged "Task sharing failed:" not_found w))) /\
  (int4 id = false \/ int4 owner = false ->
   deleteTask (DeleteTaskInput.mk id owner) w =
     (Throws DatabaseError, logged "Task deletion failed:" DatabaseError w) /\
   shareTask (ShareTaskInput.mk id owner) w =
     (Throws DatabaseError, logged "Task sharing failed:" DatabaseError w)) /\
  (forall out w',
     deleteTask (DeleteTaskInput.mk id owner) w = (Returns out, w') ->
     deleteTask (DeleteTaskInput.mk id owner) w' =
       (Throws not_found, logged "Task deletion failed:" not_found w')).
Proof.
  intros absent not_found. subst absent.
  pose proof (deleteTask_unfold (DeleteTaskInput.mk id owner)) as Hd.
  pose proof (shareTask_unfold (ShareTaskInput.mk id owner)) as Hs.
  cbv zeta in Hd, Hs. unfold lookup_failure in Hd, Hs.
  cbn [DeleteTaskInput.id DeleteTaskInput.user_id] in Hd.
  cbn [ShareTaskInput.id ShareTaskInput.user_id] in Hs.
  split; [| split].
  - intros Hid Howner. rewrite <- (task_of_none id owner w Hid Howner).
    rewrite Hd, Hs, Hid, Howner. cbn [andb]. split.
    + split.
      * intros ->. reflexivity.
      * destruct (task_of id owner w); [discriminate | reflexivity].
    + split.
      * intros ->. reflexivity.
      * destruct (task_of id owner w); [discriminate | reflexivity].
  - intros Hout. rewrite Hd, Hs. unfold task_of.
    assert (Hboth : int4 id && int4 owner = false).
    { destruct Hout as [-> | ->]; [reflexivity | apply andb_false_r]. }
    rewrite Hboth. split; reflexivity.
  - intros out w'. rewrite !Hd.
    destruct (task_of id owner w) as [t |] eqn:Hfound; [| discriminate].
    destruct (task_of_some _ _ _ _ Hfound) as [[Hid Howner] _].
    intros Heq. injection Heq as _ <-.
    unfold task_of, with_tasks. cbn [tasks].
    rewrite Hid, Howner. cbn [andb].
    now rewrite find_filter_negb.
Qed.

(** C7. For a task the caller owns, share returns the fixed template
    with the stored title between double quotes and the stored
    description after "Description: ", both exactly as stored, and the
    store is the same afterwards. Whatever share does, returning or
    throwing, both tables and both sequences are as before. *)
Theorem shareTask_template (w : World) (input : ShareTaskInput.t) (task : Task.t) :
  task_of (ShareTaskInput.id input) (ShareTaskInput.user_id input) w = Some task ->
  shareTask input w =
    (Returns (ShareTaskResponse.mk
       ("Check out my task: " ++ Js.dquote ++ Task.title task ++ Js.dquote ++
        Js.lf ++ Js.lf ++ "Description: " ++ Task.description task ++
        Js.lf ++ Js.lf ++ "#TaskManagement #Productivity")), w) /\
  (forall other : ShareTaskInput.t,
     let w' := snd (shareTask other w) in
     users w' = users w /\ tasks w' = tasks w /\
     users_seq w' = users_seq w /\ tasks_seq w' = tasks_seq w).
Proof.
  intros Hfound. split.
  - pose proof (shareTask_unfold input w) as Hs. cbv zeta in Hs.
    now rewrite Hs, Hfound.
  - intros other. cbv zeta.
    pose proof (shareTask_unfold other w) as Hs. cbv zeta in Hs. rewrite Hs.
    destruct (task_of (ShareTaskInput.id other) (ShareTaskInput.user_id other) w);
      repeat split; reflexivity.
Qed.

(** *** The procedure boundary *)

(** C10. At the registration procedure a password shorter than six
    characters (UTF-16 code units, as zod counts them) is refused by the
    input schema: the procedure throws BAD_REQUEST and the registration
    handler does not run (the store, console included, is untouched);
    whenever the handler does run, the password it receives has at least
    six characters. The login schema has no such bound: any string, the
    empty one included, passes as a password and reaches the login
    handler. *)
Theorem registerUser_procedure_min_password
    (w : World) (now : Z) (entropy : list N) (raw : JsValue) (short : string) :
  field "password" raw = Some (JsString short) ->
  (Js.length short < 6)%nat ->
  registerUser_procedure now entropy raw w = (Throws BadRequest, w) /\
  (forall raw' input,
     registerUserInputSchema is_email raw' = Some input ->
     registerUser_procedure now entropy raw' w = registerUser now entropy input w /\
     (6 <= Js.length (RegisterUserInput.password input))%nat) /\
  (forall email password,
     is_email email = true ->
     loginUser_procedure
       (JsObject [("email", JsString email); ("password", JsString password)]) w =
     loginUser (LoginUserInput.mk email password) w).
Proof.
  intros Hfield Hshort. split; [| split].
  - unfold registerUser_procedure, procedure, registerUserInputSchema.
    rewrite Hfield. cbn [z_string z_min].
    destruct (Nat.leb_spec 6 (Js.length short)) as [Hge | _]; [lia |].
    destruct (field "email" raw) as [e |]; [| reflexivity].
    destruct (z_email is_email (z_string e)); reflexivity.
  - intros raw' input Hparse. split.
    + unfold registerUser_procedure, procedure. now rewrite Hparse.
    + unfold registerUserInputSchema in Hparse.
      destruct (field "email" raw') as [e |]; [| discriminate].
      destruct (field "password" raw') as [p |]; [| discriminate].
      destruct (z_email is_email (z_string e)); [| discriminate].
      destruct (z_string p) as [pw |]; cbn [z_min] in Hparse; [| discriminate].
      destruct (Nat.leb_spec 6 (Js.length pw)) as [Hge | _]; [| discriminate].
      injection Hparse as <-. exact Hge.
  - intros email password Hemail.
    unfold loginUser_procedure, procedure, loginUserInputSchema.
    cbn. now rewrite Hemail.
Qed.

(* ===================================================================== *)
(** ** Further properties of the handlers *)
(* ===================================================================== *)

(** *** Generic list facts *)

Lemma find_some_existsb {A} (p : A -> bool) (l : list A) (x : A) :
  find p l = Some x -> existsb p l = true.
Proof.
  induction l as [| y l IH]; simpl; [discriminate |].
  destruct (p y); [reflexivity | exact IH].
Qed.

Lemma find_none_when {A} (p : A -> bool) (l : list A) :
  (forall x, In x l -> p x = false) -> find p l = None.
Proof.
  induction l as [| y l IH]; simpl; intros H; [reflexivity |].
  rewrite (H y (or_introl eq_refl)). apply IH. intros x Hx. apply H. now right.
Qed.

Lemma filter_all {A} (p : A -> bool) (l : list A) :
  (forall x, In x l -> p x = true) -> filter p l = l.
Proof.
  induction l as [| y l IH]; simpl; intros H; [reflexivity |].
  rewrite (H y (or_introl eq_refl)). f_equal. apply IH.
  intros x Hx. apply H. now right.
Qed.

Lemma NoDup_snoc {A} (l : list A) (x : A) :
  NoDup l -> ~ In x l -> NoDup (l ++ [x]).
Proof.
  intros Hl Hx. apply (Permutation_NoDup (Permutation_cons_append l x)).
  now constructor.
Qed.

(** *** Creating *)

Lemma createTask_unfold (now : Z) (input : CreateTaskInput.t) (w : World) :
  let owner := CreateTaskInput.user_id input in
  createTask now input w =
  match user_with_id owner w with
  | None =>
      let e := lookup_failure (int4 owner) (OwnerNotFound owner) in
      (Throws e, logged "Task creation failed:" e w)
  | Some _ =>
      if create_accepted input
      then
        let row := Task.mk (tasks_seq w + 1) owner (CreateTaskInput.title input)
                     (CreateTaskInput.description input)
                     (CreateTaskInput.due_date input)
                     (CreateTaskInput.completed input) now in
        (Returns row, with_tasks w (tasks w ++ [row]) (tasks_seq w + 1))
      else (Throws DatabaseError, logged "Task creation failed:" DatabaseError w)
  end.
Proof.
  intros owner. unfold user_with_id, lookup_failure.
  unfold createTask, log_and_rethrow, try_catch, bind, select_users.
  fold owner. cbn [users_bound].
  destruct (int4 owner) eqn:Hrange; [| reflexivity].
  change (users_where (users_id_eq owner)) with (fun u => User.id u =? owner).
  destruct (find _ (users w)) as [u |] eqn:Hfind.
  - pose proof (find_some_existsb _ _ _ Hfind) as Hex.
    rewrite filter_find in Hfind.
    destruct (filter _ (users w)); [discriminate |].
    unfold insert_task, task_values_ok, create_accepted. rewrite Hrange.
    cbn [andb].
    destruct (text_ok (CreateTaskInput.title input) &&
              text_ok (CreateTaskInput.description input) &&
              timestamp_ok (CreateTaskInput.due_date input)); [| reflexivity].
    simpl. rewrite Hex. reflexivity.
  - rewrite filter_find in Hfind.
    destruct (filter _ (users w)); [reflexivity | discriminate].
Qed.

Lemma user_with_id_none (id : Z) (w : World) :
  int4 id = true ->
  (user_with_id id w = None <-> forall u, In u (users w) -> User.id u <> id).
Proof.
  intros Hrange. unfold user_with_id. rewrite Hrange. split.
  - intros H u Hin Heq. apply (find_none _ _ H) in Hin.
    apply Z.eqb_neq in Hin. contradiction.
  - intros H. apply find_none_when. intros u Hu.
    apply Z.eqb_neq. now apply H.
Qed.

(** X1. Creating a task, by the owner id and the values sent. For an
    owner id in the range of the id column, the handler throws "User with
    id N not found" exactly when no stored user has that id; for an owner
    id outside the range the user lookup is refused and the handler
    throws the database's error. When the owner is stored and the
    database takes the title, the description and the due date, the
    handler returns a task that carries the next value of the task
    sequence as id, the input's owner, title, description, due date and
    completed flag and the clock reading as creation time, and the store
    holds that task as the last row; when the database refuses one of
    the values, the handler throws its error. A creation that throws
    writes nothing but the console line. *)
Theorem createTask_outcomes (w : World) (now : Z) (input : CreateTaskInput.t) :
  let owner := CreateTaskInput.user_id input in
  let not_found := Error ("User with id " ++ Js.number_toString owner ++ " not found") in
  let task := Task.mk (tasks_seq w + 1) owner (CreateTaskInput.title input)
                (CreateTaskInput.description input) (CreateTaskInput.due_date input)
                (CreateTaskInput.completed input) now in
  let refused :=
    (Throws DatabaseError, logged "Task creation failed:" DatabaseError w) in
  (int4 owner = true ->
   ((forall u, In u (users w) -> User.id u <> owner) <->
    createTask now input w =
      (Throws not_found, logged "Task creation failed:" not_found w))) /\
  (int4 owner = false -> createTask now input w = refused) /\
  (int4 owner = true ->
   (exists u, In u (users w) /\ User.id u = owner) ->
   (text_ok (CreateTaskInput.title input) = true ->
    text_ok (CreateTaskInput.description input) = true ->
    timestamp_ok (CreateTaskInput.due_date input) = true ->
    createTask now input w =
      (Returns task, with_tasks w (tasks w ++ [task]) (tasks_seq w + 1))) /\
   (text_ok (CreateTaskInput.title input) = false \/
    text_ok (CreateTaskInput.description input) = false \/
    timestamp_ok (CreateTaskInput.due_date input) = false ->
    createTask now input w = refused)).
Proof.
  intros owner not_found task refused. subst refused.
  pose proof (createTask_unfold now input w) as Hu. cbv zeta in Hu. fold owner in Hu.
  unfold lookup_failure in Hu.
  rewrite Hu. split; [| split].
  - intros Hrange. rewrite <- (user_with_id_none owner w Hrange).
    rewrite Hrange. split.
    + intros ->. reflexivity.
    + destruct (user_with_id owner w); [| reflexivity].
      destruct (create_accepted input); discriminate.
  - intros Hrange. unfold user_with_id. rewrite Hrange. reflexivity.
  - intros Hrange [u [Hin Hid]].
    destruct (user_with_id owner w) eqn:Hfind.
    + unfold create_accepted. split.
      * intros -> -> ->. reflexivity.
      * intros [-> | [-> | ->]]; [reflexivity | |].
        -- now rewrite andb_false_r.
        -- now rewrite andb_false_r.
    + exfalso. exact (proj1 (user_with_id_none _ _ Hrange) Hfind u Hin Hid).
Qed.

Lemma createTask_returns (now : Z) (input : CreateTaskInput.t) (w w1 : World)
    (task : Task.t) :
  createTask now input w = (Returns task, w1) ->
  task = Task.mk (tasks_seq w + 1) (CreateTaskInput.user_id input)
           (CreateTaskInput.title input) (CreateTaskInput.description input)
           (CreateTaskInput.due_date input) (CreateTaskInput.completed input) now /\
  w1 = with_tasks w (tasks w ++ [task]) (tasks_seq w + 1) /\
  int4 (CreateTaskInput.user_id input) = true.
Proof.
  pose proof (createTask_unfold now input w) as Hu. cbv zeta in Hu. rewrite Hu.
  unfold user_with_id.
  destruct (int4 (CreateTaskInput.user_id input)); [| discriminate].
  destruct (find _ (users w)); [| discriminate].
  destruct (create_accepted input); [| discriminate].
  intros [= <- <-]. repeat split; reflexivity.
Qed.

(** X2. In a store whose task ids all came from the sequence, and whose
    sequence has not left the range of the id column, a task that was
    just created can be found again under the id returned: sharing it as
    its owner gives the template with the title and the description that
    were sent, sharing it as any other user the id column can hold is
    refused with "Task not found or access denied", an update with no
    fields returns it as stored, and deleting it as its owner puts both
    tables back as they were before the creation. *)
Theorem createTask_round_trip
    (w w1 : World) (now : Z) (input : CreateTaskInput.t) (task : Task.t) :
  (forall t, In t (tasks w) -> Task.id t <= tasks_seq w) ->
  int4 (tasks_seq w + 1) = true ->
  createTask now input w = (Returns task, w1) ->
  let owner := CreateTaskInput.user_id input in
  shareTask (ShareTaskInput.mk (Task.id task) owner) w1 =
    (Returns (ShareTaskResponse.mk
                (shareText_of (CreateTaskInput.title input)
                   (CreateTaskInput.description input))), w1) /\
  (forall other, int4 other = true -> other <> owner ->
     fst (shareTask (ShareTaskInput.mk (Task.id task) other) w1) = Throws TaskNotFound) /\
  fst (updateTask (UpdateTaskInput.mk (Task.id task) None None None None) w1) =
    Returns task /\
  (exists w2,
     deleteTask (DeleteTaskInput.mk (Task.id task) owner) w1 =
       (Returns (DeleteTaskResponse.mk true), w2) /\
     tasks w2 = tasks w /\ users w2 = users w).
Proof.
  intros Hseq Hnext Hrun owner.
  destruct (createTask_returns _ _ _ _ _ Hrun) as [Htask [Hw1 Howner]].
  fold owner in Howner.
  assert (Hid : Task.id task = tasks_seq w + 1) by (now rewrite Htask).
  assert (Hidrange : int4 (Task.id task) = true) by (now rewrite Hid).
  assert (Hown : Task.user_id task = owner) by (now rewrite Htask).
  assert (Hold : forall other t, In t (tasks w) ->
                   has_id_and_owner (Task.id task) other t = false).
  { intros other t Hin. unfold has_id_and_owner.
    apply andb_false_iff. left. apply Z.eqb_neq.
    specialize (Hseq t Hin). lia. }
  assert (Holdid : forall t, In t (tasks w) -> has_id (Task.id task) t = false).
  { intros t Hin. unfold has_id. apply Z.eqb_neq. specialize (Hseq t Hin). lia. }
  assert (Hnew : has_id_and_owner (Task.id task) owner task = true).
  { unfold has_id_and_owner. now rewrite Hown, !Z.eqb_refl. }
  assert (Hfind : task_of (Task.id task) owner w1 = Some task).
  { unfold task_of. rewrite Hidrange, Howner, Hw1. cbn [andb tasks with_tasks].
    apply find_app_last; [| exact Hnew].
    apply find_none_when. intros t Hin. now apply Hold. }
  split; [| split; [| split]].
  - pose proof (shareTask_unfold (ShareTaskInput.mk (Task.id task) owner) w1) as Hs.
    cbv zeta in Hs. cbn [ShareTaskInput.id ShareTaskInput.user_id] in Hs.
    rewrite Hs, Hfind. now rewrite Htask.
  - intros other Hrange Hother.
    pose proof (shareTask_unfold (ShareTaskInput.mk (Task.id task) other) w1) as Hs.
    cbv zeta in Hs. cbn [ShareTaskInput.id ShareTaskInput.user_id] in Hs.
    rewrite Hs. unfold lookup_failure. rewrite Hidrange, Hrange.
    replace (task_of (Task.id task) other w1) with (@None Task.t); [reflexivity |].
    symmetry. unfold task_of. rewrite Hidrange, Hrange, Hw1.
    cbn [andb tasks with_tasks].
    apply find_none_when. intros t Hin. apply in_app_or in Hin.
    destruct Hin as [Hin | [<- | []]]; [now apply Hold |].
    unfold has_id_and_owner. apply andb_false_iff. right.
    apply Z.eqb_neq. rewrite Hown. congruence.
  - pose proof (updateTask_unfold
                  (UpdateTaskInput.mk (Task.id task) None None None None) w1) as Hu.
    cbv zeta in Hu. cbn [UpdateTaskInput.id] in Hu. rewrite Hu.
    replace (task_with_id (Task.id task) w1) with (Some task).
    + rewrite build_updateData_fields. cbn. fold no_updateData.
      now rewrite apply_set_nothing.
    + symmetry. unfold task_with_id. rewrite Hidrange, Hw1. cbn [tasks with_tasks].
      apply find_app_last; [| unfold has_id; apply Z.eqb_refl].
      apply find_none_when. exact Holdid.
  - pose proof (deleteTask_unfold (DeleteTaskInput.mk (Task.id task) owner) w1) as Hd.
    cbv zeta in Hd. cbn [DeleteTaskInput.id DeleteTaskInput.user_id] in Hd.
    rewrite Hd, Hfind. eexists. split; [reflexivity |].
    rewrite Hw1. cbn [tasks users with_tasks]. split; [| reflexivity].
    rewrite filter_app. simpl. rewrite Hnew. simpl. rewrite app_nil_r.
    apply filter_all. intros t Hin. now rewrite (Hold owner t Hin).
Qed.

(** X3. After a task was created, every listing of its owner's tasks
    holds the new task next to the owner's earlier tasks, and the
    listings of every other owner are what they were. *)
Theorem createTask_then_list
    (w w1 : World) (now : Z) (input : CreateTaskInput.t) (task : Task.t) :
  createTask now input w = (Returns task, w1) ->
  let owner := CreateTaskInput.user_id input in
  (forall results,
     getUserTasks (GetUserTasksInput.mk owner) w1 (Returns results, w1) ->
     In task results /\
     Permutation (task :: filter (owned_by owner) (tasks w)) results) /\
  (forall other results,
     other <> owner ->
     (getUserTasks (GetUserTasksInput.mk other) w1 (Returns results, w1) <->
      getUserTasks (GetUserTasksInput.mk other) w (Returns results, w))).
Proof.
  intros Hrun owner.
  destruct (createTask_returns _ _ _ _ _ Hrun) as [Htask [Hw1 Howner]].
  fold owner in Howner.
  assert (Hown : Task.user_id task = owner) by (now rewrite Htask).
  assert (Hmine : filter (owned_by owner) (tasks w1) =
                  (filter (owned_by owner) (tasks w) ++ [task])%list).
  { rewrite Hw1. cbn [tasks with_tasks]. rewrite filter_app. simpl.
    unfold owned_by at 2. now rewrite Hown, Z.eqb_refl. }
  assert (Htheirs : forall other, other <> owner ->
            filter (owned_by other) (tasks w1) = filter (owned_by other) (tasks w)).
  { intros other Hother. rewrite Hw1. cbn [tasks with_tasks].
    rewrite filter_app. simpl. unfold owned_by at 2. rewrite Hown.
    destruct (Z.eqb_spec owner other); [congruence | apply app_nil_r]. }
  split.
  - intros results Hlist.
    apply (getUserTasks_unfold (GetUserTasksInput.mk owner) w1) in Hlist.
    cbv zeta in Hlist. cbn [GetUserTasksInput.user_id] in Hlist.
    rewrite Howner in Hlist. destruct Hlist as [r [[Hperm _] [= <-]]].
    rewrite Hmine in Hperm.
    assert (Hp : Permutation (task :: filter (owned_by owner) (tasks w)) results).
    { eapply perm_trans; [apply Permutation_cons_append | exact Hperm]. }
    split; [| exact Hp]. apply (Permutation_in _ Hp). now left.
  - intros other results Hother.
    pose proof (getUserTasks_unfold (GetUserTasksInput.mk other) w1
                  (Returns results, w1)) as H1.
    pose proof (getUserTasks_unfold (GetUserTasksInput.mk other) w
                  (Returns results, w)) as H0.
    cbv zeta in H1, H0. cbn [GetUserTasksInput.user_id] in H1, H0.
    rewrite H1, H0. destruct (int4 other).
    + rewrite (Htheirs other Hother). split.
      * intros [r [Hord [= <-]]]. exists results. now split.
      * intros [r [Hord [= <-]]]. exists results. now split.
    + split; discriminate.
Qed.

(** *** The table constraints *)

Lemma consistent_same_tables (w w' : World) :
  users w' = users w -> tasks w' = tasks w ->
  users_seq w' = users_seq w -> tasks_seq w' = tasks_seq w ->
  consistent w -> consistent w'.
Proof.
  unfold consistent. intros -> -> -> ->. exact (fun H => H).
Qed.

Lemma consistent_registerUser (w : World) (now : Z) (entropy : list N)
    (input : RegisterUserInput.t) :
  consistent w -> consistent (snd (registerUser now entropy input w)).
Proof.
  intros Hc. rewrite registerUser_unfold.
  destruct (user_with_email _ w) eqn:Hfind.
  - now apply (consistent_same_tables w).
  - destruct Hc as [Hids [Hemails [Hseq [Htids [Htseq Hfk]]]]].
    cbv zeta. cbn [snd]. unfold consistent, with_users.
    cbn [users tasks users_seq tasks_seq].
    rewrite !map_app. cbn [map User.id User.email].
    refine (conj _ (conj _ (conj _ (conj _ (conj _ _))))).
    + apply NoDup_snoc; [exact Hids |]. intros Hin.
      apply in_map_iff in Hin. destruct Hin as [u [Hu Hin]].
      specialize (Hseq u Hin). lia.
    + apply NoDup_snoc; [exact Hemails |]. intros Hin.
      apply in_map_iff in Hin. destruct Hin as [u [Hu Hin]].
      exact (proj1 (user_with_email_none _ _) Hfind u Hin Hu).
    + intros u Hin. apply in_app_or in Hin.
      destruct Hin as [Hin | [<- | []]]; [specialize (Hseq u Hin); lia |].
      cbn [User.id]. lia.
    + exact Htids.
    + exact Htseq.
    + intros t Hin. destruct (Hfk t Hin) as [u [Hu Hid]].
      exists u. split; [apply in_or_app; now left | exact Hid].
Qed.

Lemma consistent_createTask (w : World) (now : Z) (input : CreateTaskInput.t) :
  consistent w -> consistent (snd (createTask now input w)).
Proof.
  intros Hc. pose proof (createTask_unfold now input w) as Hu. cbv zeta in Hu.
  rewrite Hu. clear Hu.
  destruct (user_with_id _ w) as [owner |] eqn:Hfind;
    [destruct (create_accepted input) |].
  - destruct Hc as [Hids [Hemails [Hseq [Htids [Htseq Hfk]]]]].
    cbn [snd]. unfold consistent, with_tasks.
    cbn [users tasks users_seq tasks_seq].
    rewrite !map_app. cbn [map Task.id].
    refine (conj _ (conj _ (conj _ (conj _ (conj _ _))))); try assumption.
    + apply NoDup_snoc; [exact Htids |]. intros Hin.
      apply in_map_iff in Hin. destruct Hin as [t [Ht Hin]].
      specialize (Htseq t Hin). lia.
    + intros t Hin. apply in_app_or in Hin.
      destruct Hin as [Hin | [<- | []]]; [specialize (Htseq t Hin); lia |].
      cbn [Task.id]. lia.
    + intros t Hin. apply in_app_or in Hin.
      destruct Hin as [Hin | [<- | []]]; [now apply Hfk |].
      unfold user_with_id in Hfind.
      destruct (int4 (CreateTaskInput.user_id input)); [| discriminate].
      apply find_some in Hfind.
      destruct Hfind as [Hin Hid]. apply Z.eqb_eq in Hid.
      exists owner. split; [exact Hin | exact Hid].
  - now apply (consistent_same_tables w).
  - now apply (consistent_same_tables w).
Qed.

Lemma map_if_apply_set_ids (id : Z) (d : UpdateData) (l : list Task.t) :
  map Task.id (map (fun t => if has_id id t then apply_set d t else t) l) =
  map Task.id l.
Proof.
  rewrite map_map. apply map_ext. intros t. now destruct (has_id id t).
Qed.

Lemma consistent_updateTask (w : World) (input : UpdateTaskInput.t) :
  consistent w -> consistent (snd (updateTask input w)).
Proof.
  intros Hc. pose proof (updateTask_unfold input w) as Hu. cbv zeta in Hu.
  rewrite Hu. clear Hu.
  destruct (task_with_id _ w) as [existing |];
    [destruct (set_ok timestamp_ok (build_updateData input)) |].
  - destruct Hc as [Hids [Hemails [Hseq [Htids [Htseq Hfk]]]]].
    cbn [snd]. unfold consistent, with_tasks.
    cbn [users tasks users_seq tasks_seq].
    rewrite map_if_apply_set_ids.
    refine (conj _ (conj _ (conj _ (conj _ (conj _ _))))); try assumption.
    + intros t Hin. apply in_map_iff in Hin. destruct Hin as [t0 [Ht Hin]].
      specialize (Htseq t0 Hin). subst t.
      destruct (has_id _ t0); exact Htseq.
    + intros t Hin. apply in_map_iff in Hin. destruct Hin as [t0 [Ht Hin]].
      destruct (Hfk t0 Hin) as [u [Hu Hid]]. exists u. split; [exact Hu |].
      subst t. destruct (has_id _ t0); exact Hid.
  - now apply (consistent_same_tables w).
  - now apply (consistent_same_tables w).
Qed.

Lemma consistent_deleteTask (w : World) (input : DeleteTaskInput.t) :
  consistent w -> consistent (snd (deleteTask input w)).
Proof.
  intros Hc. pose proof (deleteTask_unfold input w) as Hd. cbv zeta in Hd.
  rewrite Hd. clear Hd.
  destruct (task_of _ _ w) as [existing |].
  - destruct Hc as [Hids [Hemails [Hseq [Htids [Htseq Hfk]]]]].
    cbn [snd]. unfold consistent, with_tasks.
    cbn [users tasks users_seq tasks_seq].
    refine (conj _ (conj _ (conj _ (conj _ (conj _ _))))); try assumption.
    + now apply NoDup_map_filter.
    + intros t Hin. apply filter_In in Hin. now apply Htseq.
    + intros t Hin. apply filter_In in Hin. now apply Hfk.
  - now apply (consistent_same_tables w).
Qed.

(** X4. The constraints the table declarations state (ids and emails
    unique, ids no greater than their sequence, every task owned by a
    stored user) hold after every handler whenever they held before it,
    whether the handler returns or throws. *)
Theorem handlers_keep_consistent (w : World) :
  consistent w ->
  (forall now entropy input, consistent (snd (registerUser now entropy input w))) /\
  (forall input, consistent (snd (loginUser input w))) /\
  (forall now input, consistent (snd (createTask now input w))) /\
  (forall input out w', getUserTasks input w (out, w') -> consistent w') /\
  (forall input, consistent (snd (updateTask input w))) /\
  (forall input, consistent (snd (deleteTask input w))) /\
  (forall input, consistent (snd (shareTask input w))).
Proof.
  intros Hc.
  refine (conj _ (conj _ (conj _ (conj _ (conj _ (conj _ _)))))).
  - intros. now apply consistent_registerUser.
  - intros input. rewrite loginUser_unfold.
    destruct (user_with_email _ w); [destruct (verifyPassword _ _) |];
      now apply (consistent_same_tables w).
  - intros. now apply consistent_createTask.
  - intros input out w' Hlist. apply getUserTasks_unfold in Hlist.
    cbv zeta in Hlist. destruct (int4 _).
    + destruct Hlist as [results [_ [= _ <-]]]. exact Hc.
    + injection Hlist as _ ->. now apply (consistent_same_tables w).
  - intros. now apply consistent_updateTask.
  - intros. now apply consistent_deleteTask.
  - intros input. pose proof (shareTask_unfold input w) as Hs. cbv zeta in Hs.
    rewrite Hs.
    destruct (task_of _ _ w); now apply (consistent_same_tables w).
Qed.


(** *** What a delete removes *)

Lemma remove_by_key {A} (f : A -> Z) (l : list A) (x : A) :
  NoDup (map f l) -> In x l ->
  Permutation l (x :: filter (fun t => negb (f t =? f x)) l).
Proof.
  induction l as [| a l IH]; simpl; [intros _ [] |].
  intros Hnd Hin. inversion Hnd as [| ? ? Ha Hl]; subst.
  destruct Hin as [-> | Hin].
  - rewrite Z.eqb_refl. simpl. apply perm_skip.
    rewrite filter_all; [apply Permutation_refl |].
    intros t Ht. apply negb_true_iff, Z.eqb_neq. intros Heq.
    apply Ha. rewrite <- Heq. now apply in_map.
  - destruct (Z.eqb_spec (f a) (f x)) as [Heq | Hne]; simpl.
    + exfalso. apply Ha. rewrite Heq. now apply in_map.
    + apply perm_trans with (a :: x :: filter (fun t => negb (f t =? f x)) l).
      * apply perm_skip. now apply IH.
      * apply perm_swap.
Qed.

Lemma filter_filter_implied {A} (p q : A -> bool) (l : list A) :
  (forall x, p x = true -> q x = true) -> filter p (filter q l) = filter p l.
Proof.
  intros H. induction l as [| x l IH]; simpl; [reflexivity |].
  destruct (p x) eqn:Hp.
  - rewrite (H x Hp). simpl. now rewrite Hp, IH.
  - destruct (q x); simpl; [now rewrite Hp |]; exact IH.
Qed.

Lemma filter_ext_in_keyed (id owner : Z) (l : list Task.t) (target : Task.t) :
  NoDup (map Task.id l) -> In target l ->
  Task.id target = id -> Task.user_id target = owner ->
  filter (fun t => negb (has_id_and_owner id owner t)) l =
  filter (fun t => negb (Task.id t =? Task.id target)) l.
Proof.
  intros Hnd Hin Hid Hown. apply filter_ext_in. intros t Ht.
  unfold has_id_and_owner. rewrite Hid.
  destruct (Z.eqb_spec (Task.id t) id) as [Heq | Hne]; [| reflexivity].
  assert (t = target)
    by (apply (NoDup_map_inj Task.id l); [assumption .. | congruence]).
  subst t. now rewrite Hown, Z.eqb_refl.
Qed.

(** X6. When the task ids of the store are unique, a delete that returns
    has removed exactly one row, the one with the given id and owner:
    the tasks left are all the others in their old order, the listings
    of every other owner are unchanged, and so are the users, the
    sequences and the console. *)
Theorem deleteTask_removes_only_target
    (w w' : World) (input : DeleteTaskInput.t) (out : DeleteTaskResponse.t) :
  NoDup (map Task.id (tasks w)) ->
  deleteTask input w = (Returns out, w') ->
  exists target,
    In target (tasks w) /\
    Task.id target = DeleteTaskInput.id input /\
    Task.user_id target = DeleteTaskInput.user_id input /\
    tasks w' = filter (fun t => negb (Task.id t =? DeleteTaskInput.id input)) (tasks w) /\
    Permutation (tasks w) (target :: tasks w') /\
    (forall other, other <> DeleteTaskInput.user_id input ->
       filter (owned_by other) (tasks w') = filter (owned_by other) (tasks w)) /\
    w' = with_tasks w (tasks w') (tasks_seq w).
Proof.
  intros Hnd Hrun.
  pose proof (deleteTask_unfold input w) as Hd. cbv zeta in Hd.
  rewrite Hd in Hrun. clear Hd.
  destruct (task_of _ _ w) as [target |] eqn:Hfind; [| discriminate].
  injection Hrun as _ <-. apply task_of_some in Hfind.
  destruct Hfind as [[Hidrange Hownrange] Hfind].
  apply find_some in Hfind. destruct Hfind as [Hin Hp].
  unfold has_id_and_owner in Hp. apply andb_true_iff in Hp.
  destruct Hp as [Hid Hown]. apply Z.eqb_eq in Hid, Hown.
  exists target. cbn [tasks with_tasks].
  assert (Hothers : forall other, other <> DeleteTaskInput.user_id input ->
            filter (owned_by other)
              (filter (fun t => negb (has_id_and_owner (DeleteTaskInput.id input)
                                        (DeleteTaskInput.user_id input) t)) (tasks w)) =
            filter (owned_by other) (tasks w)).
  { intros other Hother. apply filter_filter_implied. intros t Ht.
    unfold owned_by in Ht. apply Z.eqb_eq in Ht.
    unfold has_id_and_owner. apply negb_true_iff, andb_false_iff. right.
    apply Z.eqb_neq. congruence. }
  rewrite (filter_ext_in_keyed _ _ _ target Hnd Hin Hid Hown) in Hothers |- *.
  rewrite <- Hid.
  refine (conj Hin (conj eq_refl (conj Hown (conj eq_refl (conj _ (conj Hothers eq_refl)))))).
  now apply remove_by_key.
Qed.

(** *** When a login returns *)

(** X7. A login returns exactly when the first stored user with that
    email has a credential with a colon and text on both sides of it
    whose hash part decodes to the bytes of the digest of password and
    salt. What it returns is that user's id, email (the one asked for)
    and creation time, with no token, and the store, console included,
    is as before. *)
Theorem loginUser_returns_iff
    (w w' : World) (input : LoginUserInput.t) (response : AuthResponse.t) :
  loginUser input w = (Returns response, w') <->
  exists user rest,
    user_with_email (LoginUserInput.email input) w = Some user /\
    Js.after_sep ":" (User.password_hash user) = Some rest /\
    malformed_credential (User.password_hash user) = false /\
    Js.Buffer_from_hex (Js.before_sep ":" rest) =
      Js.Buffer_from_hex
        (sha256_hex (LoginUserInput.password input ++
                     Js.before_sep ":" (User.password_hash user))) /\
    response =
      AuthResponse.mk
        (PublicUser.mk (User.id user) (LoginUserInput.email input)
           (User.created_at user)) None /\
    w' = w.
Proof.
  rewrite loginUser_unfold. split.
  - destruct (user_with_email _ w) as [user |] eqn:Hfind; [| discriminate].
    destruct (verifyPassword _ _) eqn:Hv; [| discriminate].
    intros [= <- <-]. apply verifyPassword_true_iff in Hv.
    destruct Hv as [rest [Hrest [Hwf Hbytes]]].
    exists user, rest.
    refine (conj eq_refl (conj Hrest (conj Hwf (conj Hbytes (conj _ eq_refl))))).
    unfold user_with_email in Hfind. apply find_some in Hfind.
    destruct Hfind as [_ Heq]. apply String.eqb_eq in Heq.
    unfold public_user. now rewrite Heq.
  - intros [user [rest [Hfind [Hrest [Hwf [Hbytes [-> ->]]]]]]].
    rewrite Hfind.
    assert (Hv : verifyPassword (LoginUserInput.password input)
                   (User.password_hash user) = true).
    { apply verifyPassword_true_iff. exists rest. repeat split; assumption. }
    rewrite Hv.
    unfold user_with_email in Hfind. apply find_some in Hfind.
    destruct Hfind as [_ Heq]. apply String.eqb_eq in Heq.
    unfold public_user. now rewrite Heq.
Qed.

(** *** Updating twice *)

Lemma apply_set_twice (d : UpdateData) (t : Task.t) :
  apply_set d (apply_set d t) = apply_set d t.
Proof.
  destruct d as [[?|] [?|] [?|] [?|]]; reflexivity.
Qed.

(** X10. An update never adds or removes a row and never changes the id,
    the owner or the creation time of any row; and sending the same
    update again, once it was applied, returns the same task and leaves
    the store as the first call left it. *)
Theorem updateTask_idempotent
    (w w1 : World) (input : UpdateTaskInput.t) (updated : Task.t) :
  updateTask input w = (Returns updated, w1) ->
  updateTask input w1 = (Returns updated, w1) /\
  map Task.id (tasks w1) = map Task.id (tasks w) /\
  map Task.user_id (tasks w1) = map Task.user_id (tasks w) /\
  map Task.created_at (tasks w1) = map Task.created_at (tasks w).
Proof.
  intros Hrun.
  pose proof (updateTask_unfold input w) as Hu. cbv zeta in Hu.
  rewrite Hu in Hrun. clear Hu.
  destruct (task_with_id _ w) as [existing |] eqn:Hfind; [| discriminate].
  destruct (set_ok timestamp_ok (build_updateData input)) eqn:Hok;
    [| discriminate].
  injection Hrun as <- <-.
  destruct (task_with_id_some _ _ _ Hfind) as [Hrange Hfind'].
  set (id := UpdateTaskInput.id input) in *.
  set (d := build_updateData input) in *.
  split; [| split; [| split]].
  - pose proof (updateTask_unfold input
                  (with_tasks w
                     (map (fun t => if has_id id t then apply_set d t else t) (tasks w))
                     (tasks_seq w))) as Hu.
    cbv zeta in Hu. fold id in Hu. fold d in Hu. rewrite Hu. clear Hu.
    unfold task_with_id. rewrite Hrange, Hok. cbn [tasks with_tasks tasks_seq].
    rewrite find_map_if, Hfind'. cbn [option_map].
    rewrite apply_set_twice. f_equal. unfold with_tasks.
    cbn [users tasks users_seq tasks_seq console]. f_equal.
    rewrite map_map. apply map_ext. intros t.
    destruct (has_id id t) eqn:Ht.
    + now rewrite apply_set_has_id, Ht, apply_set_twice.
    + now rewrite Ht.
  - cbn [tasks with_tasks]. apply map_if_apply_set_ids.
  - cbn [tasks with_tasks]. rewrite map_map. apply map_ext.
    intros t. now destruct (has_id id t).
  - cbn [tasks with_tasks]. rewrite map_map. apply map_ext.
    intros t. now destruct (has_id id t).
Qed.

(** *** Hex strings and the credentials of the login tests *)

Lemma hex_digit_hex_char (n : N) :
  (n < 16)%N -> Js.hex_digit (Js.hex_char n) = Some n.
Proof.
  intros Hn.
  assert (Hall : Forall (fun k => Js.hex_digit (Js.hex_char k) = Some k)
                   (map N.of_nat (seq 0 16)))
    by (vm_compute; repeat constructor).
  rewrite Forall_forall in Hall. apply Hall.
  apply in_map_iff. exists (N.to_nat n). split; [apply N2Nat.id |].
  apply in_seq. lia.
Qed.

Lemma hex_char_not_colon (n : N) : Js.hex_char n <> ":"%char.
Proof.
  unfold Js.hex_char.
  destruct (nth_in_or_default (N.to_nat n)
              (list_ascii_of_string "0123456789abcdef") "0"%char)
    as [Hin | ->]; [| discriminate].
  revert Hin. generalize (nth (N.to_nat n)
                            (list_ascii_of_string "0123456789abcdef") "0"%char).
  intros c Hin Hc. subst c. revert Hin. vm_compute.
  intros H. repeat (destruct H as [H | H]; [discriminate |]). exact H.
Qed.

(** Decoding the hex print of bytes gives the bytes back. *)
Lemma Buffer_hex_round_trip (bytes : list N) :
  Forall (fun b => (b < 256)%N) bytes ->
  Js.Buffer_from_hex (Js.Buffer_toString_hex bytes) = bytes.
Proof.
  induction 1 as [| b rest Hb _ IH]; [reflexivity |].
  cbn [Js.Buffer_toString_hex Js.Buffer_from_hex].
  rewrite !hex_digit_hex_char.
  - rewrite IH. f_equal. symmetry. apply N.div_mod. discriminate.
  - apply N.mod_lt. discriminate.
  - apply N.Div0.div_lt_upper_bound. exact Hb.
Qed.

Lemma toString_hex_no_colon (bytes : list N) :
  ~ In ":"%char (list_ascii_of_string (Js.Buffer_toString_hex bytes)).
Proof.
  induction bytes as [| b rest IH]; simpl; [exact (fun H => H) |].
  intros [H | [H | H]].
  - exact (hex_char_not_colon _ H).
  - exact (hex_char_not_colon _ H).
  - exact (IH H).
Qed.

Lemma toString_hex_not_empty (bytes : list N) :
  bytes <> [] -> is_empty (Js.Buffer_toString_hex bytes) = false.
Proof. destruct bytes; [congruence | reflexivity]. Qed.

Lemma append_empty_r_local (s : string) : s ++ "" = s.
Proof. induction s as [| c rest IH]; simpl; [reflexivity | now rewrite IH]. Qed.

Lemma before_sep_colon_free (sep : ascii) (s : string) :
  ~ In sep (list_ascii_of_string s) -> Js.before_sep sep s = s.
Proof.
  induction s as [| c rest IH]; simpl; [reflexivity |].
  intros H. destruct (Ascii.eqb_spec c sep) as [-> | _];
    [exfalso; apply H; now left |].
  f_equal. apply IH. intros Hin. apply H. now right.
Qed.

Lemma before_sep_app (sep : ascii) (a b : string) :
  ~ In sep (list_ascii_of_string a) ->
  Js.before_sep sep (a ++ String sep b) = a.
Proof.
  induction a as [| c rest IH]; simpl.
  - now rewrite Ascii.eqb_refl.
  - intros H. destruct (Ascii.eqb_spec c sep) as [-> | _];
      [exfalso; apply H; now left |].
    f_equal. apply IH. intros Hin. apply H. now right.
Qed.

Lemma after_sep_app (sep : ascii) (a b : string) :
  ~ In sep (list_ascii_of_string a) ->
  Js.after_sep sep (a ++ String sep b) = Some b.
Proof.
  induction a as [| c rest IH]; simpl.
  - now rewrite Ascii.eqb_refl.
  - intros H. destruct (Ascii.eqb_spec c sep) as [-> | _];
      [exfalso; apply H; now left |].
    apply IH. intros Hin. apply H. now right.
Qed.

(** What verification comes to on a credential written salt, colon,
    hash with nothing else. *)
Lemma verifyPassword_salt_hash (password salt hash : string) :
  ~ In ":"%char (list_ascii_of_string salt) ->
  ~ In ":"%char (list_ascii_of_string hash) ->
  is_empty salt = false -> is_empty hash = false ->
  (verifyPassword password (salt ++ ":" ++ hash) = true <->
   Js.Buffer_from_hex hash = Js.Buffer_from_hex (sha256_hex (password ++ salt))).
Proof.
  intros Hsalt Hhash Hs Hh. rewrite verifyPassword_true_iff.
  unfold malformed_credential.
  change (salt ++ ":" ++ hash) with (salt ++ String ":"%char hash).
  rewrite (after_sep_app ":" salt hash Hsalt).
  rewrite (before_sep_app ":" salt hash Hsalt).
  rewrite (before_sep_colon_free ":" hash Hhash), Hs, Hh. split.
  - intros [rest [[= <-] [_ Heq]]].
    now rewrite (before_sep_colon_free ":" hash Hhash) in Heq.
  - intros Heq. exists hash. repeat split.
    now rewrite (before_sep_colon_free ":" hash Hhash).
Qed.

(** X8. A credential made by the helper of the login tests verifies the
    password it was made for, and another password verifies against it
    exactly when its digest with the same salt is the same. This needs
    what the digest function gives: the hex print of a non-empty byte
    string; and that the helper drew at least one random byte. *)
Theorem createPasswordHash_verifies (password : string) (random : list N) :
  random <> [] ->
  (forall s, exists bytes,
      bytes <> [] /\ Forall (fun b => (b < 256)%N) bytes /\
      sha256_hex s = Js.Buffer_toString_hex bytes) ->
  verifyPassword password (createPasswordHash password random) = true /\
  (forall other,
     verifyPassword other (createPasswordHash password random) = true <->
     sha256_hex (other ++ Js.Buffer_toString_hex random) =
     sha256_hex (password ++ Js.Buffer_toString_hex random)).
Proof.
  intros Hrandom Hdigest.
  set (salt := Js.Buffer_toString_hex random).
  assert (Hiff : forall other,
            verifyPassword other (createPasswordHash password random) = true <->
            sha256_hex (other ++ salt) = sha256_hex (password ++ salt)).
  { intros other. unfold createPasswordHash, hashPassword. fold salt.
    destruct (Hdigest (password ++ salt)) as [stored [Hne [Hb Hstored]]].
    destruct (Hdigest (other ++ salt)) as [given [_ [Hg Hgiven]]].
    rewrite verifyPassword_salt_hash.
    - rewrite Hstored, Hgiven, !Buffer_hex_round_trip by assumption.
      split; [intros -> | intros H]; [reflexivity |].
      apply (f_equal Js.Buffer_from_hex) in H.
      now rewrite !Buffer_hex_round_trip in H by assumption.
    - apply toString_hex_no_colon.
    - rewrite Hstored. apply toString_hex_no_colon.
    - now apply toString_hex_not_empty.
    - rewrite Hstored. now apply toString_hex_not_empty. }
  split; [now apply Hiff | exact Hiff].
Qed.

Lemma hex_digit_upper_char (c : ascii) :
  Js.hex_digit (upper_char c) = Js.hex_digit c.
Proof.
  destruct c as [[] [] [] [] [] [] [] []]; reflexivity.
Qed.

Lemma upper_char_colon (c : ascii) : upper_char c = ":"%char -> c = ":"%char.
Proof.
  destruct c as [[] [] [] [] [] [] [] []]; vm_compute; congruence.
Qed.

Lemma Buffer_from_hex_uppercase (s : string) :
  Js.Buffer_from_hex (uppercase s) = Js.Buffer_from_hex s.
Proof.
  assert (H : forall s,
             Js.Buffer_from_hex (uppercase s) = Js.Buffer_from_hex s /\
             forall c, Js.Buffer_from_hex (uppercase (String c s)) =
                       Js.Buffer_from_hex (String c s)).
  { clear s. induction s as [| a rest [IH0 IH1]].
    - split; [reflexivity | intros c; reflexivity].
    - split; [apply IH1 |]. intros c.
      cbn [uppercase Js.Buffer_from_hex].
      rewrite !hex_digit_upper_char.
      destruct (Js.hex_digit c), (Js.hex_digit a); try reflexivity.
      f_equal. exact IH0. }
  apply H.
Qed.

Lemma uppercase_no_colon (s : string) :
  ~ In ":"%char (list_ascii_of_string s) ->
  ~ In ":"%char (list_ascii_of_string (uppercase s)).
Proof.
  induction s as [| c rest IH]; simpl; [exact (fun H => H) |].
  intros H [Hc | Hin].
  - apply H. left. now apply upper_char_colon.
  - apply IH; [| exact Hin]. intros Hr. apply H. now right.
Qed.

Lemma verifyPassword_prefix (password salt hash : string) :
  ~ In ":"%char (list_ascii_of_string salt) ->
  ~ In ":"%char (list_ascii_of_string hash) ->
  forall tail,
    (tail = EmptyString \/ exists extra, tail = String ":"%char extra) ->
    verifyPassword password (salt ++ String ":"%char (hash ++ tail)) =
    if is_empty salt || is_empty hash then false
    else match Js.timingSafeEqual (Js.Buffer_from_hex hash)
                 (Js.Buffer_from_hex (sha256_hex (password ++ salt))) with
         | Some equal => equal
         | None => false
         end.
Proof.
  intros Hsalt Hhash tail Htail. unfold verifyPassword, hashPassword.
  rewrite (split_before_after ":" (salt ++ String ":"%char (hash ++ tail))).
  rewrite (after_sep_app ":" salt _ Hsalt), (before_sep_app ":" salt _ Hsalt).
  rewrite (split_before_after ":" (hash ++ tail)).
  assert (Hb : Js.before_sep ":" (hash ++ tail) = hash).
  { destruct Htail as [-> | [extra ->]].
    - rewrite append_empty_r_local. now apply before_sep_colon_free.
    - now apply before_sep_app. }
  rewrite Hb. cbn [nth_error]. unfold is_empty.
  destruct salt, hash; reflexivity.
Qed.

(** X9. Verification reads the stored credential leniently: whatever
    follows a second colon is ignored, and the hash part may be written
    in capital hex digits; neither changes whether a password
    verifies. *)
Theorem verifyPassword_lenient (password salt hash extra : string) :
  ~ In ":"%char (list_ascii_of_string salt) ->
  ~ In ":"%char (list_ascii_of_string hash) ->
  verifyPassword password (salt ++ ":" ++ hash ++ ":" ++ extra) =
    verifyPassword password (salt ++ ":" ++ hash) /\
  verifyPassword password (salt ++ ":" ++ uppercase hash) =
    verifyPassword password (salt ++ ":" ++ hash).
Proof.
  intros Hsalt Hhash.
  pose proof (verifyPassword_prefix password salt hash Hsalt Hhash) as Hp.
  pose proof (verifyPassword_prefix password salt (uppercase hash) Hsalt
                (uppercase_no_colon hash Hhash)) as Hu.
  split.
  - change (salt ++ ":" ++ hash ++ ":" ++ extra)
      with (salt ++ String ":"%char (hash ++ String ":"%char extra)).
    rewrite (Hp (String ":"%char extra)) by (right; now exists extra).
    replace (salt ++ ":" ++ hash) with (salt ++ String ":"%char (hash ++ ""))
      by (now rewrite append_empty_r_local).
    now rewrite (Hp EmptyString) by (now left).
  - replace (salt ++ ":" ++ uppercase hash)
      with (salt ++ String ":"%char (uppercase hash ++ ""))
      by (now rewrite append_empty_r_local).
    replace (salt ++ ":" ++ hash) with (salt ++ String ":"%char (hash ++ ""))
      by (now rewrite append_empty_r_local).
    rewrite (Hp EmptyString), (Hu EmptyString) by (now left).
    rewrite Buffer_from_hex_uppercase.
    now destruct hash.
Qed.

(* ===================================================================== *)
(** ** Properties of the client *)
(* ===================================================================== *)

(** *** Status of a task *)

Lemma hoursDiff_lt (timeDiff hours : Z) :
  Qlt_bool (inject_Z timeDiff / inject_Z (1000 * 3600))%Q (inject_Z hours) =
  (timeDiff <? hours * 3600000).
Proof.
  unfold Qlt_bool, Qle_bool, Qdiv, Qmult, Qinv, inject_Z. cbn.
  destruct (Z.ltb_spec timeDiff (hours * 3600000)) as [Hlt | Hge].
  - apply negb_true_iff, Z.leb_gt. lia.
  - apply negb_false_iff, Z.leb_le. lia.
Qed.

Lemma getDueDateStatus_unfold (now : Z) (task : Task.t) :
  getDueDateStatus now task =
  if Task.completed task then "completed"
  else if Task.due_date task <? now then "overdue"
  else if Task.due_date task <? now + 86400000 then "due-soon"
  else "normal".
Proof.
  unfold getDueDateStatus. cbv zeta. rewrite !hoursDiff_lt.
  destruct (Task.completed task); [reflexivity |].
  destruct (Z.ltb_spec (Task.due_date task - now) (0 * 3600000)),
    (Z.ltb_spec (Task.due_date task) now); try lia; [reflexivity |].
  destruct (Z.ltb_spec (Task.due_date task - now) (24 * 3600000)),
    (Z.ltb_spec (Task.due_date task) (now + 86400000)); try lia; reflexivity.
Qed.

(** X11. The status of a task, at the clock reading the status function
    takes, is "completed" exactly when the task is completed, whatever
    its due date; otherwise "overdue" exactly when it is due before that
    reading, "due-soon" when it is due then or within the next 24 hours
    (24 hours sharp excluded), and "normal" from 24 hours on. The red
    highlight of the card ([isOverdue]) reads the clock on its own,
    before the badge does: when the clock has not gone back in between,
    a highlighted card carries the Overdue badge, and a card with the
    Overdue badge and no highlight is one that fell due between the two
    readings. *)
Theorem getDueDateStatus_cases (now : Z) (task : Task.t) :
  let due := Task.due_date task in
  (getDueDateStatus now task = "completed" <-> Task.completed task = true) /\
  (getDueDateStatus now task = "overdue" <->
   Task.completed task = false /\ due < now) /\
  (getDueDateStatus now task = "due-soon" <->
   Task.completed task = false /\ now <= due < now + 24 * 60 * 60 * 1000) /\
  (getDueDateStatus now task = "normal" <->
   Task.completed task = false /\ now + 24 * 60 * 60 * 1000 <= due) /\
  (forall earlier,
     earlier <= now ->
     (isOverdue earlier task = true -> getStatusBadge now task = "Overdue") /\
     (isOverdue earlier task = false /\ getStatusBadge now task = "Overdue" <->
      Task.completed task = false /\ earlier <= due < now)).
Proof.
  intros due. unfold getStatusBadge, isOverdue. cbv zeta.
  rewrite getDueDateStatus_unfold. fold due.
  refine (conj _ (conj _ (conj _ (conj _ _)))).
  - destruct (Task.completed task);
      destruct (Z.ltb_spec due now);
      destruct (Z.ltb_spec due (now + 86400000));
      split; intros; try discriminate; reflexivity.
  - destruct (Task.completed task);
      destruct (Z.ltb_spec due now);
      destruct (Z.ltb_spec due (now + 86400000));
      split; intros H'; try discriminate; try (destruct H'; discriminate);
      try (destruct H'; lia); try (split; [reflexivity | lia]); reflexivity.
  - destruct (Task.completed task);
      destruct (Z.ltb_spec due now);
      destruct (Z.ltb_spec due (now + 86400000));
      split; intros H'; try discriminate; try (destruct H'; discriminate);
      try (destruct H'; lia); try (split; [reflexivity | lia]); reflexivity.
  - destruct (Task.completed task);
      destruct (Z.ltb_spec due now);
      destruct (Z.ltb_spec due (now + 86400000));
      split; intros H'; try discriminate; try (destruct H'; discriminate);
      try (destruct H'; lia); try (split; [reflexivity | lia]); reflexivity.
  - intros earlier Hearlier.
    destruct (Task.completed task);
      destruct (Z.ltb_spec due earlier);
      destruct (Z.ltb_spec due now);
      destruct (Z.ltb_spec due (now + 86400000));
      cbn; (split; [intros H'; try discriminate; try lia; reflexivity |]);
      split; intros H'; try (destruct H'; discriminate); try (destruct H'; lia);
      try (split; [reflexivity | lia]); split; reflexivity.
Qed.

(** *** The counters and the tabs of the dashboard *)

Lemma filter_partition_length {A} (p : A -> bool) (l : list A) :
  (List.length (filter p l) + List.length (filter (fun x => negb (p x)) l) =
   List.length l)%nat.
Proof.
  induction l as [| x l IH]; simpl; [reflexivity |].
  destruct (p x); simpl; lia.
Qed.

(** A callback that does not look at the clock, and a clock that stands
    still. *)
Lemma filter_reading_const {A} (p : A -> bool) (clock : nat -> Z) (i : nat)
    (l : list A) :
  filter_reading (fun _ => p) clock i l = filter p l.
Proof.
  revert i. induction l as [| x l IH]; intros i; simpl; [reflexivity |].
  rewrite IH. reflexivity.
Qed.

Lemma filter_reading_still {A} (p : Z -> A -> bool) (clock : nat -> Z) (now : Z)
    (i : nat) (l : list A) :
  (forall n, clock n = now) -> filter_reading p clock i l = filter (p now) l.
Proof.
  intros Hstill. revert i. induction l as [| x l IH]; intros i; simpl;
    [reflexivity |].
  rewrite IH, Hstill. reflexivity.
Qed.

Lemma filter_reading_In {A} (p : Z -> A -> bool) (clock : nat -> Z) (i : nat)
    (l : list A) (x : A) :
  In x (filter_reading p clock i l) -> In x l.
Proof.
  revert i. induction l as [| y l IH]; intros i; simpl; [exact (fun H => H) |].
  destruct (p (clock i) y); simpl.
  - intros [-> | Hin]; [now left | right; exact (IH _ Hin)].
  - intros Hin. right. exact (IH _ Hin).
Qed.

Lemma filter_reading_length_le {A} (p q : Z -> A -> bool) (c c' : nat -> Z)
    (l : list A) :
  (forall n m x, p (c n) x = true -> q (c' m) x = true) ->
  forall i j,
    (List.length (filter_reading p c i l) <=
     List.length (filter_reading q c' j l))%nat.
Proof.
  intros H. induction l as [| x l IH]; intros i j; simpl; [lia |].
  specialize (IH (S i) (S j)).
  destruct (p (c i) x) eqn:Hp.
  - rewrite (H i j x Hp). simpl. lia.
  - destruct (q (c' j) x); simpl; lia.
Qed.

(** X12. On the dashboard every task counts as completed or as pending
    and never as both, so the two counters add up to the total; the
    overdue counter never exceeds the pending one. The Completed and the
    Pending tab show the tasks their counters count, and any other tab
    name but Overdue shows all tasks. The Overdue tab and the overdue
    counter read the clock again for every task, the tab first: as long
    as the clock does not go back, the counter counts every task the tab
    shows, and it counts exactly those, the tasks highlighted as overdue,
    when the clock stands still. A tab shows its tasks in the order of
    the list. *)
Theorem dashboard_counters (clock later : nat -> Z) (tasks : list Task.t) :
  (completedTasks tasks + pendingTasks tasks = List.length tasks)%nat /\
  (overdueTasks later tasks <= pendingTasks tasks)%nat /\
  filteredTasks "completed" clock tasks = filter Task.completed tasks /\
  List.length (filteredTasks "completed" clock tasks) = completedTasks tasks /\
  filteredTasks "pending" clock tasks =
    filter (fun task => negb (Task.completed task)) tasks /\
  List.length (filteredTasks "pending" clock tasks) = pendingTasks tasks /\
  ((forall i j, clock i <= later j) ->
   (List.length (filteredTasks "overdue" clock tasks) <=
    overdueTasks later tasks)%nat) /\
  (forall now,
     (forall i, clock i = now) -> (forall i, later i = now) ->
     filteredTasks "overdue" clock tasks = filter (isOverdue now) tasks /\
     List.length (filteredTasks "overdue" clock tasks) = overdueTasks later tasks) /\
  (forall tab,
     tab <> "completed" -> tab <> "pending" -> tab <> "overdue" ->
     filteredTasks tab clock tasks = tasks) /\
  (forall tab,
     StronglySorted by_due_date tasks ->
     StronglySorted by_due_date (filteredTasks tab clock tasks)).
Proof.
  unfold completedTasks, pendingTasks, overdueTasks, filteredTasks.
  assert (Hcompleted :
            filter_reading (tab_shows "completed") clock 0 tasks =
            filter Task.completed tasks)
    by apply (filter_reading_const Task.completed).
  assert (Hpending :
            filter_reading (tab_shows "pending") clock 0 tasks =
            filter (fun task => negb (Task.completed task)) tasks)
    by apply (filter_reading_const (fun task => negb (Task.completed task))).
  refine (conj _ (conj _ (conj Hcompleted (conj _ (conj Hpending
           (conj _ (conj _ (conj _ (conj _ _))))))))).
  - apply filter_partition_length.
  - rewrite <- (filter_reading_const _ later 0).
    apply filter_reading_length_le. intros n m t Ht.
    now apply andb_true_iff in Ht.
  - now rewrite Hcompleted.
  - now rewrite Hpending.
  - intros Hclock. apply filter_reading_length_le. intros n m t.
    change (tab_shows "overdue" (clock n) t)
      with (negb (Task.completed t) && (Task.due_date t <? clock n)).
    intros Ht. apply andb_true_iff in Ht. destruct Ht as [Hc Hdue].
    rewrite Hc. cbn [andb]. apply Z.ltb_lt in Hdue. apply Z.ltb_lt.
    specialize (Hclock n m). lia.
  - intros now Hclock Hlater.
    rewrite (filter_reading_still _ clock now 0 tasks Hclock).
    rewrite (filter_reading_still _ later now 0 tasks Hlater).
    split; reflexivity.
  - intros tab H1 H2 H3.
    apply String.eqb_neq in H1, H2, H3.
    transitivity (filter (fun _ : Task.t => true) tasks).
    + rewrite <- (filter_reading_const _ clock 0).
      unfold tab_shows. rewrite H1, H2, H3. reflexivity.
    + apply filter_all. reflexivity.
  - intros tab Hs. clear Hcompleted Hpending. generalize 0%nat.
    induction Hs as [| t l Hl IH Ht]; intros i; simpl; [constructor |].
    destruct (tab_shows tab (clock i) t); [| apply IH].
    constructor; [apply IH |].
    rewrite Forall_forall in Ht |- *. intros x Hx.
    apply filter_reading_In in Hx. now apply Ht.
Qed.

(** *** The dashboard and the server *)

Lemma Permutation_filter_same {A} (p : A -> bool) (l l' : list A) :
  Permutation l l' -> Permutation (filter p l) (filter p l').
Proof.
  induction 1 as [| x l l' _ IH | x y l | l l' l'' _ IH1 _ IH2]; simpl.
  - constructor.
  - destruct (p x); [now apply perm_skip | exact IH].
  - destruct (p x), (p y);
      first [apply perm_swap | apply Permutation_refl].
  - eapply perm_trans; eassumption.
Qed.

Lemma filter_filter_cond {A} (p q q' : A -> bool) (l : list A) :
  (forall x, p x = true -> q x = q' x) ->
  filter p (filter q l) = filter q' (filter p l).
Proof.
  intros H. induction l as [| x l IH]; simpl; [reflexivity |].
  destruct (p x) eqn:Hp; simpl.
  - rewrite <- (H x Hp). destruct (q x); simpl; [now rewrite Hp, IH | exact IH].
  - destruct (q x); simpl; [now rewrite Hp |]; exact IH.
Qed.

Lemma sorted_filter (p : Task.t -> bool) (l : list Task.t) :
  StronglySorted by_due_date l -> StronglySorted by_due_date (filter p l).
Proof.
  induction 1 as [| t l Hl IH Ht]; simpl; [constructor |].
  destruct (p t); [| exact IH]. constructor; [exact IH |].
  rewrite Forall_forall in Ht |- *. intros x Hx.
  apply filter_In in Hx. now apply Ht.
Qed.

Lemma sorted_snoc (l : list Task.t) (t : Task.t) :
  StronglySorted by_due_date (l ++ [t]) <->
  StronglySorted by_due_date l /\
  Forall (fun x => Task.due_date x <= Task.due_date t) l.
Proof.
  induction l as [| a l IH]; simpl.
  - split; [intros _; split; constructor | intros _; repeat constructor].
  - split.
    + intros H. inversion H as [| ? ? Hs Ha]; subst.
      apply IH in Hs. destruct Hs as [Hs Hall].
      apply Forall_app in Ha. destruct Ha as [Ha Hat].
      split; [now constructor |]. constructor; [| exact Hall].
      now inversion Hat.
    + intros [H Hall]. inversion H as [| ? ? Hs Ha]; subst.
      inversion Hall as [| ? ? Hat Hall']; subst.
      constructor; [apply IH; now split |].
      apply Forall_app. split; [exact Ha | now constructor].
Qed.

(** X13. While the dashboard shows a listing of the tasks of a user
    whose id the id column can hold, deleting a task that is on the list
    returns, takes that task (and nothing else) off the list, keeps the
    list a listing of what the server now holds for the user, and keeps
    it in due-date order if it was. For an id that is not on the list the
    server refuses, with "Task not found or access denied" when the id
    column can hold the id and with the database's error when it cannot;
    the list stays as it is and the error is logged and thrown on. *)
Theorem handleDeleteTask_keeps_view
    (user : PublicUser.t) (taskId : Z) (d : Dashboard.t) (w : World) :
  int4 (PublicUser.id user) = true ->
  Permutation (filter (owned_by (PublicUser.id user)) (tasks w)) (Dashboard.tasks d) ->
  let shown := filter (fun task => negb (Task.id task =? taskId)) (Dashboard.tasks d) in
  (int4 taskId = true ->
   (exists t, In t (Dashboard.tasks d) /\ Task.id t = taskId) ->
   exists w',
     handleDeleteTask user taskId (d, w) =
       (Returns tt,
        (Dashboard.mk shown (Dashboard.isLoading d) (Dashboard.showCreateForm d)
           (Dashboard.activeTab d) (Dashboard.console d), w')) /\
     Permutation (filter (owned_by (PublicUser.id user)) (tasks w')) shown /\
     (forall t, In t shown <-> In t (Dashboard.tasks d) /\ Task.id t <> taskId) /\
     (StronglySorted by_due_date (Dashboard.tasks d) ->
      StronglySorted by_due_date shown)) /\
  (int4 taskId = true ->
   (forall t, In t (Dashboard.tasks d) -> Task.id t <> taskId) ->
   handleDeleteTask user taskId (d, w) =
     (Throws TaskNotFound,
      (dashboard_log "Failed to delete task:" TaskNotFound d,
       logged "Task deletion failed:" TaskNotFound w))) /\
  (int4 taskId = false ->
   handleDeleteTask user taskId (d, w) =
     (Throws DatabaseError,
      (dashboard_log "Failed to delete task:" DatabaseError d,
       logged "Task deletion failed:" DatabaseError w))).
Proof.
  intros Huser Hview shown.
  pose proof (deleteTask_unfold
                (DeleteTaskInput.mk taskId (PublicUser.id user)) w) as Hd.
  cbv zeta in Hd. cbn [DeleteTaskInput.id DeleteTaskInput.user_id] in Hd.
  unfold lookup_failure in Hd. rewrite Huser in Hd.
  unfold handleDeleteTask. rewrite Hd. clear Hd. split; [| split].
  - intros Hrange [t [Hin Hid]].
    apply (Permutation_in _ (Permutation_sym Hview)) in Hin.
    apply filter_In in Hin. destruct Hin as [Hin Hown].
    unfold owned_by in Hown. apply Z.eqb_eq in Hown.
    destruct (task_of taskId (PublicUser.id user) w) eqn:Hfind.
    + eexists. split; [reflexivity |]. cbn [tasks with_tasks].
      split; [| split].
      * rewrite (filter_filter_cond _ _ (fun task => negb (Task.id task =? taskId))).
        -- now apply Permutation_filter_same.
        -- intros x Hx. unfold owned_by in Hx. unfold has_id_and_owner.
           now rewrite Hx, andb_true_r.
      * intros x. unfold shown. rewrite filter_In.
        rewrite negb_true_iff, Z.eqb_neq. reflexivity.
      * apply sorted_filter.
    + exfalso.
      exact (proj1 (task_of_none _ _ _ Hrange Huser) Hfind t Hin Hid Hown).
  - intros Hrange Hnone. rewrite Hrange. cbn [andb].
    replace (task_of taskId (PublicUser.id user) w) with (@None Task.t);
      [reflexivity |].
    symmetry. apply (task_of_none _ _ _ Hrange Huser). intros t Hin Hid Hown.
    apply (Hnone t); [| exact Hid].
    apply (Permutation_in _ Hview). apply filter_In.
    split; [exact Hin | now apply Z.eqb_eq].
  - intros Hrange. unfold task_of. rewrite Hrange. reflexivity.
Qed.

(** X14. While the dashboard shows a listing of the tasks of a stored
    user, creating a task with a title of at least one character and
    values the database takes returns, closes the form and puts the
    created task at the end of the list, which is then again a listing
    of what the server holds for the user. The new task goes last
    whatever its due date: the list stays in due-date order exactly when
    it was in order and nothing on it is due later than the new task. A
    title without a character is refused by the input schema, and a
    value the database does not take by the database: the list and the
    form stay as they are and the error is logged and thrown on. *)
Theorem handleCreateTask_appends
    (user : PublicUser.t) (now : Z) (taskData : TaskData.t)
    (d : Dashboard.t) (w : World) :
  Permutation (filter (owned_by (PublicUser.id user)) (tasks w)) (Dashboard.tasks d) ->
  int4 (PublicUser.id user) = true ->
  (exists u, In u (users w) /\ User.id u = PublicUser.id user) ->
  let newTask :=
    Task.mk (tasks_seq w + 1) (PublicUser.id user) (TaskData.title taskData)
      (TaskData.description taskData) (TaskData.due_date taskData)
      (TaskData.completed taskData) now in
  let shown := (Dashboard.tasks d ++ [newTask])%list in
  let accepted :=
    text_ok (TaskData.title taskData) &&
    text_ok (TaskData.description taskData) &&
    timestamp_ok (TaskData.due_date taskData) in
  ((1 <= Js.length (TaskData.title taskData))%nat ->
   accepted = true ->
   exists w',
     handleCreateTask user now taskData (d, w) =
       (Returns tt,
        (Dashboard.mk shown (Dashboard.isLoading d) false (Dashboard.activeTab d)
           (Dashboard.console d), w')) /\
     Permutation (filter (owned_by (PublicUser.id user)) (tasks w')) shown /\
     (StronglySorted by_due_date shown <->
      StronglySorted by_due_date (Dashboard.tasks d) /\
      Forall (fun t => Task.due_date t <= TaskData.due_date taskData)
        (Dashboard.tasks d))) /\
  (Js.length (TaskData.title taskData) = 0%nat ->
   handleCreateTask user now taskData (d, w) =
     (Throws BadRequest, (dashboard_log "Failed to create task:" BadRequest d, w))) /\
  ((1 <= Js.length (TaskData.title taskData))%nat ->
   accepted = false ->
   handleCreateTask user now taskData (d, w) =
     (Throws DatabaseError,
      (dashboard_log "Failed to create task:" DatabaseError d,
       logged "Task creation failed:" DatabaseError w))).
Proof.
  intros Hview Hrange [u [Hu Hid]] newTask shown accepted.
  unfold handleCreateTask, createTask_procedure.
  cbn [CreateTaskInput.title].
  pose proof (createTask_unfold now
                (CreateTaskInput.mk (PublicUser.id user) (TaskData.title taskData)
                   (TaskData.description taskData) (TaskData.due_date taskData)
                   (TaskData.completed taskData)) w) as Hc.
  cbv zeta in Hc. unfold create_accepted in Hc.
  cbn [CreateTaskInput.user_id CreateTaskInput.title
       CreateTaskInput.description CreateTaskInput.due_date
       CreateTaskInput.completed] in Hc.
  fold accepted in Hc.
  destruct (user_with_id (PublicUser.id user) w) eqn:Hfind;
    [| exfalso; exact (proj1 (user_with_id_none _ _ Hrange) Hfind u Hu Hid)].
  split; [| split].
  - intros Htitle Haccepted. apply Nat.leb_le in Htitle.
    rewrite Htitle, Hc, Haccepted.
    eexists. split; [reflexivity |]. cbn [tasks with_tasks]. split.
    + rewrite filter_app. simpl. unfold owned_by at 2. cbn [Task.user_id].
      rewrite Z.eqb_refl. now apply Permutation_app_tail.
    + apply sorted_snoc.
  - intros ->. reflexivity.
  - intros Htitle Hrefused. apply Nat.leb_le in Htitle.
    rewrite Htitle, Hc, Hrefused. reflexivity.
Qed.

(** *** The forms *)

Lemma is_empty_iff (s : string) : is_empty s = true <-> s = EmptyString.
Proof. destruct s; simpl; split; congruence. Qed.

Lemma is_empty_false_iff (s : string) : is_empty s = false <-> s <> EmptyString.
Proof. destruct s; simpl; split; congruence. Qed.


Lemma credentials_login (email password : string) :
  loginUserInputSchema is_email (credentials email password) =
  if is_email email then Some (LoginUserInput.mk email password) else None.
Proof.
  unfold loginUserInputSchema, credentials. cbn.
  destruct (is_email email); reflexivity.
Qed.


(** X17. The login form sends nothing while the email or the password
    is empty. Otherwise, when the email is well formed, has a stored user
    and the password verifies, that user becomes the signed-in user and
    is kept in local storage, and no error is shown; in every other case,
    be it an email the schema refuses, an email nobody has or a password
    that does not verify, the form shows the one message "Invalid email
    or password. Please try again." and nobody is signed in or stored. *)
Theorem LoginForm_signs_in (email password : string) (a : App.t) (w : World) :
  let submit := LoginForm_handleSubmit handleLogin email password (a, w) in
  ((email = EmptyString \/ password = EmptyString) ->
   submit = ("Please fill in all fields", (a, w))) /\
  (email <> EmptyString -> password <> EmptyString ->
   (forall user,
      is_email email = true ->
      user_with_email email w = Some user ->
      verifyPassword password (User.password_hash user) = true ->
      let signedIn := PublicUser.mk (User.id user) email (User.created_at user) in
      submit =
        ("", (App.mk (Some signedIn) false (Some signedIn) (App.console a), w))) /\
   ((is_email email = false \/
     user_with_email email w = None \/
     (exists user, user_with_email email w = Some user /\
                   verifyPassword password (User.password_hash user) = false)) ->
    fst submit = "Invalid email or password. Please try again." /\
    App.user (fst (snd submit)) = App.user a /\
    App.taskapp_user (fst (snd submit)) = App.taskapp_user a /\
    users (snd (snd submit)) = users w /\
    tasks (snd (snd submit)) = tasks w)).
Proof.
  intros submit. subst submit. unfold LoginForm_handleSubmit. split.
  - intros [-> | ->]; cbn; rewrite ?orb_true_r; reflexivity.
  - intros He Hp. apply is_empty_false_iff in He, Hp. rewrite He, Hp.
    cbn [orb].
    unfold handleLogin, App_authenticate, loginUser_procedure, procedure.
    rewrite credentials_login. split.
    + intros user Hemail Hfind Hv. cbv zeta.
      rewrite Hemail, loginUser_unfold.
      cbn [LoginUserInput.email LoginUserInput.password].
      rewrite Hfind, Hv. cbn [AuthResponse.user].
      unfold user_with_email in Hfind. apply find_some in Hfind.
      destruct Hfind as [_ Heq]. apply String.eqb_eq in Heq.
      unfold public_user. now rewrite Heq.
    + intros Hwhy. destruct (is_email email) eqn:Hemail.
      * rewrite loginUser_unfold.
        cbn [LoginUserInput.email LoginUserInput.password].
        destruct Hwhy as [Hf | [Hnone | [user [Hfind Hv]]]]; [discriminate | |].
        -- rewrite Hnone. repeat split; reflexivity.
        -- rewrite Hfind, Hv. repeat split; reflexivity.
      * repeat split; reflexivity.
Qed.


(** *** Back on the server: after a delete *)

(** X18. When the task ids of the store are unique, a task that was
    deleted is gone for everybody: sharing it is refused with "Task not
    found or access denied" whoever asks (with the database's error for
    a user id the id column cannot hold), an update of it finds no task
    with that id, and no listing of any owner holds a task with that
    id. *)
Theorem deleteTask_then_gone
    (w w' : World) (input : DeleteTaskInput.t) (out : DeleteTaskResponse.t) :
  NoDup (map Task.id (tasks w)) ->
  deleteTask input w = (Returns out, w') ->
  let id := DeleteTaskInput.id input in
  (forall anyone,
     int4 anyone = true ->
     fst (shareTask (ShareTaskInput.mk id anyone) w') = Throws TaskNotFound) /\
  (forall anyone,
     int4 anyone = false ->
     fst (shareTask (ShareTaskInput.mk id anyone) w') = Throws DatabaseError) /\
  (forall title description due_date completed,
     fst (updateTask (UpdateTaskInput.mk id title description due_date completed) w') =
     Throws (TaskNotFound_by_id id)) /\
  (forall owner results t,
     getUserTasks (GetUserTasksInput.mk owner) w' (Returns results, w') ->
     In t results -> Task.id t <> id).
Proof.
  intros Hnd Hrun id.
  pose proof (deleteTask_unfold input w) as Hd. cbv zeta in Hd.
  rewrite Hd in Hrun. clear Hd.
  destruct (task_of _ _ w) as [target |] eqn:Hfind; [| discriminate].
  injection Hrun as _ <-. apply task_of_some in Hfind.
  destruct Hfind as [[Hidrange Hownrange] Hfind]. fold id in Hidrange.
  apply find_some in Hfind. destruct Hfind as [Hin Hp].
  unfold has_id_and_owner in Hp. apply andb_true_iff in Hp.
  destruct Hp as [Hid Hown]. apply Z.eqb_eq in Hid, Hown.
  assert (Hgone : forall t,
            In t (filter (fun t => negb (has_id_and_owner (DeleteTaskInput.id input)
                                          (DeleteTaskInput.user_id input) t)) (tasks w)) ->
            Task.id t <> id).
  { rewrite (filter_ext_in_keyed _ _ _ target Hnd Hin Hid Hown).
    intros t Ht. apply filter_In in Ht. destruct Ht as [_ Ht].
    apply negb_true_iff, Z.eqb_neq in Ht. unfold id. congruence. }
  refine (conj _ (conj _ (conj _ _))).
  - intros anyone Hrange.
    pose proof (shareTask_unfold (ShareTaskInput.mk id anyone)) as Hs.
    cbv zeta in Hs. cbn [ShareTaskInput.id ShareTaskInput.user_id] in Hs.
    rewrite Hs. unfold lookup_failure. rewrite Hidrange, Hrange.
    replace (task_of id anyone _) with (@None Task.t); [reflexivity |].
    symmetry. apply (task_of_none _ _ _ Hidrange Hrange). cbn [tasks with_tasks].
    intros t Ht Heq. exfalso. exact (Hgone t Ht Heq).
  - intros anyone Hrange.
    pose proof (shareTask_unfold (ShareTaskInput.mk id anyone)) as Hs.
    cbv zeta in Hs. cbn [ShareTaskInput.id ShareTaskInput.user_id] in Hs.
    rewrite Hs. unfold lookup_failure, task_of. rewrite Hidrange, Hrange.
    reflexivity.
  - intros title description due_date completed.
    pose proof (updateTask_unfold
                  (UpdateTaskInput.mk id title description due_date completed)
                  (with_tasks w
                     (filter (fun t => negb (has_id_and_owner (DeleteTaskInput.id input)
                                               (DeleteTaskInput.user_id input) t))
                        (tasks w)) (tasks_seq w))) as Hu.
    cbv zeta in Hu. cbn [UpdateTaskInput.id] in Hu. rewrite Hu. clear Hu.
    unfold lookup_failure. rewrite Hidrange.
    replace (task_with_id id _) with (@None Task.t); [reflexivity |].
    symmetry. apply (task_with_id_none _ _ Hidrange). cbn [tasks with_tasks].
    exact Hgone.
  - intros owner results t Hlist Ht.
    apply getUserTasks_unfold in Hlist. cbv zeta in Hlist.
    cbn [GetUserTasksInput.user_id] in Hlist.
    destruct (int4 owner); [| discriminate].
    destruct Hlist as [r [[Hperm _] [= <-]]].
    apply (Permutation_in _ (Permutation_sym Hperm)) in Ht.
    apply filter_In in Ht. destruct Ht as [Ht _].
    cbn [tasks with_tasks] in Ht. now apply Hgone.
Qed.
End Handlers.

(* ===================================================================== *)
(** ** Worked instances *)
(* ===================================================================== *)

(** The login handler does accept the credential format it is written
    for: Alice's stored salt and digest verify her password. *)
Example loginUser_accepts_salt_hash :
  loginUser Sample.digest (LoginUserInput.mk "alice@example.com" "secret1")
    Sample.world =
  (Returns (AuthResponse.mk (PublicUser.mk 1 "alice@example.com" 1700000000000) None),
   Sample.world).
Proof. reflexivity. Qed.

(** Registering Alice in the empty store, then logging her in. *)
Lemma register_then_login_rejected_witness :
  let input := RegisterUserInput.mk "alice@example.com" "secret1" in
  let run := registerUser Sample.radix64_digits 1700000000000 [7; 11]%N input
               Sample.empty in
  fst run =
    Returns (AuthResponse.mk (PublicUser.mk 1 "alice@example.com" 1700000000000) None) /\
  loginUser Sample.digest (LoginUserInput.mk "alice@example.com" "secret1") (snd run) =
    (Throws (Error "Invalid email or password"),
     logged "User login failed:" (Error "Invalid email or password") (snd run)).
Proof.
  intros input run. split.
  - reflexivity.
  - apply (register_then_login_rejected Sample.digest Sample.radix64_digits
             Sample.empty (snd run) 1700000000000 [7; 11]%N input
             (AuthResponse.mk (PublicUser.mk 1 "alice@example.com" 1700000000000) None)).
    reflexivity.
Defined.

(** Two tasks of one owner with the same due date: the list with the
    higher id first satisfies everything the handler's query asks, and it
    is not in id order. And an owner id nobody has, one beyond the range
    of the id column, gets the database's error instead of an empty
    list. *)
Lemma getUserTasks_ties_not_by_id :
  (getUserTasks (GetUserTasksInput.mk 1) Sample.tie_world
     (Returns [Sample.tie_second; Sample.tie_first], Sample.tie_world) /\
   ~ StronglySorted by_due_date_then_id [Sample.tie_second; Sample.tie_first]) /\
  ((forall t, In t (tasks Sample.world) -> Task.user_id t <> 2147483648) /\
   getUserTasks (GetUserTasksInput.mk 2147483648) Sample.world
     (Throws DatabaseError,
      logged "Get user tasks failed:" DatabaseError Sample.world)).
Proof.
  split; split.
  - apply getUserTasks_unfold.
    exists [Sample.tie_second; Sample.tie_first]. split; [| reflexivity].
    split.
    + apply perm_swap.
    + repeat constructor; simpl; lia.
  - intros H. inversion H as [| ? ? _ Hall]; subst.
    inversion Hall as [| ? ? Hfirst _]; subst.
    unfold by_due_date_then_id in Hfirst. simpl in Hfirst. lia.
  - simpl. intros t [<- | [<- | [<- | [<- | []]]]]; discriminate.
  - apply getUserTasks_unfold. reflexivity.
Qed.

(** Alice's three tasks, due on the 7th, the 1st and the 3rd, come back
    as 1st, 3rd, 7th, and no other answer is possible; an owner nobody
    knows gets the empty list, an owner id beyond the range of the id
    column the database's error; and the two tasks due at one instant
    leave the answer open. *)
Lemma getUserTasks_by_due_date_witness :
  let expected := [Sample.urgent_task; Sample.later_task; Sample.docs_task] in
  getUserTasks (GetUserTasksInput.mk 1) Sample.world (Returns expected, Sample.world) /\
  (forall out,
     getUserTasks (GetUserTasksInput.mk 1) Sample.world out ->
     out = (Returns expected, Sample.world)) /\
  (forall out,
     getUserTasks (GetUserTasksInput.mk 999) Sample.world out ->
     out = (Returns [], Sample.world)) /\
  (forall out,
     getUserTasks (GetUserTasksInput.mk 2147483648) Sample.world out ->
     out = (Throws DatabaseError,
            logged "Get user tasks failed:" DatabaseError Sample.world)) /\
  ~ (forall out1 out2,
       getUserTasks (GetUserTasksInput.mk 1) Sample.tie_world out1 ->
       getUserTasks (GetUserTasksInput.mk 1) Sample.tie_world out2 -> out1 = out2).
Proof.
  intros expected.
  destruct (getUserTasks_by_due_date Sample.world (GetUserTasksInput.mk 1))
    as [Hrun [_ [_ Hdetermined]]].
  destruct (getUserTasks_by_due_date Sample.world (GetUserTasksInput.mk 999))
    as [_ [Hall _]].
  destruct (getUserTasks_by_due_date Sample.world (GetUserTasksInput.mk 2147483648))
    as [_ [_ [Hrefused _]]].
  destruct (getUserTasks_by_due_date Sample.tie_world (GetUserTasksInput.mk 1))
    as [_ [_ [_ Hties]]].
  assert (Hkey : NoDup (map Task.id (tasks Sample.world))).
  { simpl. repeat (constructor; [simpl; intuition discriminate |]). constructor. }
  assert (Hkey' : NoDup (map Task.id (tasks Sample.tie_world))).
  { simpl. repeat (constructor; [simpl; intuition discriminate |]). constructor. }
  refine (conj Hrun (conj _ (conj _ (conj _ _)))).
  - intros out Hout.
    apply (proj2 (Hdetermined eq_refl Hkey)); [| exact Hout | exact Hrun].
    simpl. repeat (constructor; [simpl; intuition discriminate |]). constructor.
  - intros out Hout.
    destruct (Hall eq_refl out Hout) as [results [-> [_ [_ [_ Hempty]]]]].
    rewrite Hempty; [reflexivity |].
    simpl. intros t [<- | [<- | [<- | [<- | []]]]]; discriminate.
  - intros out Hout. exact (Hrefused eq_refl out Hout).
  - intros Hsame. apply (proj1 (Hties eq_refl Hkey')) in Hsame.
    simpl in Hsame. inversion Hsame as [| ? ? Hnotin _]; subst.
    apply Hnotin. now left.
Defined.

(** An id beyond the range of the id column, which no stored task has,
    is refused by the database, not reported as not found; and a due
    date in the year 10000, sent for Alice's first task, is refused by
    the database too. *)
Lemma updateTask_refused_by_database :
  ((forall t, In t (tasks Sample.world) -> Task.id t <> 2147483648) /\
   fst (updateTask Sample.timestamp_ok
          (UpdateTaskInput.mk 2147483648 (Some "Renamed") None None None)
          Sample.world) = Throws DatabaseError /\
   DatabaseError <> TaskNotFound_by_id 2147483648) /\
  (task_with_id 1 Sample.world = Some Sample.docs_task /\
   updateTask Sample.timestamp_ok
     (UpdateTaskInput.mk 1 None None (Some Sample.year_10000) None) Sample.world =
     (Throws DatabaseError,
      logged "Task update failed:" DatabaseError Sample.world)).
Proof.
  split; [split; [| split] | split].
  - simpl. intros t [<- | [<- | [<- | [<- | []]]]]; discriminate.
  - reflexivity.
  - discriminate.
  - reflexivity.
  - reflexivity.
Qed.

(** Bob's task is renamed by a call that names no user, an id nobody
    has is reported as not found, an id beyond the range of the id
    column is refused by the database, and so is a title with the
    character U+0000. *)
Lemma updateTask_by_id_only_witness :
  fst (updateTask Sample.timestamp_ok
         (UpdateTaskInput.mk 4 (Some "Renamed") None None None) Sample.world) =
    Returns (Task.mk 4 2 "Renamed" "Not Alice's" 1735689600000 false 1700000000005) /\
  fst (updateTask Sample.timestamp_ok
         (UpdateTaskInput.mk 999 (Some "This should fail") None None None)
         Sample.world) =
    Throws (Error "Task with id 999 not found") /\
  fst (updateTask Sample.timestamp_ok
         (UpdateTaskInput.mk 2147483648 (Some "Renamed") None None None)
         Sample.world) = Throws DatabaseError /\
  fst (updateTask Sample.timestamp_ok
         (UpdateTaskInput.mk 4 (Some (String Ascii.zero "Renamed")) None None None)
         Sample.world) = Throws DatabaseError.
Proof.
  refine (conj _ (conj _ (conj _ _))).
  - pose proof (updateTask_by_id_only Sample.timestamp_ok Sample.world
                  (UpdateTaskInput.mk 4 (Some "Renamed") None None None)) as H.
    cbv zeta in H. destruct H as [_ [_ [H _]]].
    destruct (H Sample.bobs_task eq_refl) as [Hout _].
    exact (f_equal fst (Hout eq_refl)).
  - pose proof (updateTask_by_id_only Sample.timestamp_ok Sample.world
                  (UpdateTaskInput.mk 999 (Some "This should fail") None None None)) as H.
    cbv zeta in H. destruct H as [H _].
    rewrite (proj1 (H eq_refl)); [reflexivity |].
    simpl. intros t [<- | [<- | [<- | [<- | []]]]]; discriminate.
  - pose proof (updateTask_by_id_only Sample.timestamp_ok Sample.world
                  (UpdateTaskInput.mk 2147483648 (Some "Renamed") None None None)) as H.
    cbv zeta in H. destruct H as [_ [H _]].
    exact (f_equal fst (H eq_refl)).
  - pose proof (updateTask_by_id_only Sample.timestamp_ok Sample.world
                  (UpdateTaskInput.mk 4 (Some (String Ascii.zero "Renamed"))
                     None None None)) as H.
    cbv zeta in H. destruct H as [_ [_ [H _]]].
    destruct (H Sample.bobs_task eq_refl) as [_ Hout].
    exact (f_equal fst (Hout eq_refl)).
Defined.

(** An unknown email and Alice's email with a wrong password. *)
Lemma loginUser_failures_indistinguishable_witness :
  let unknown := LoginUserInput.mk "nonexistent@example.com" "somePassword" in
  let wrong := LoginUserInput.mk "alice@example.com" "wrongPassword" in
  loginUser Sample.digest unknown Sample.world =
    (Throws (Error "Invalid email or password"),
     logged "User login failed:" (Error "Invalid email or password") Sample.world) /\
  loginUser Sample.digest wrong Sample.world =
  loginUser Sample.digest unknown Sample.world.
Proof.
  intros unknown wrong.
  apply (loginUser_failures_indistinguishable Sample.digest Sample.world
           unknown wrong Sample.alice).
  - simpl. intros u [<- | [<- | []]]; discriminate.
  - reflexivity.
  - reflexivity.
Defined.

(** An id beyond the range of the id column: no stored task has it, and
    delete and share end in the database's error, not in "Task not found
    or access denied". *)
Lemma delete_share_refused_by_database :
  (forall t, In t (tasks Sample.world) ->
             Task.id t = 2147483648 -> Task.user_id t <> 1) /\
  fst (deleteTask (DeleteTaskInput.mk 2147483648 1) Sample.world) =
    Throws DatabaseError /\
  fst (shareTask (ShareTaskInput.mk 2147483648 1) Sample.world) =
    Throws DatabaseError /\
  DatabaseError <> TaskNotFound.
Proof.
  refine (conj _ (conj eq_refl (conj eq_refl _))).
  - simpl. intros t [<- | [<- | [<- | [<- | []]]]]; simpl; intros; lia.
  - discriminate.
Qed.

(** A task of Bob's asked for by Alice, an id nobody has, a task of
    Alice's deleted twice, and a user id beyond the range of the id
    column. *)
Lemma delete_share_not_found_witness :
  let not_found := Error "Task not found or access denied" in
  fst (deleteTask (DeleteTaskInput.mk 4 1) Sample.world) = Throws not_found /\
  fst (deleteTask (DeleteTaskInput.mk 999 1) Sample.world) = Throws not_found /\
  fst (shareTask (ShareTaskInput.mk 4 1) Sample.world) = Throws not_found /\
  fst (shareTask (ShareTaskInput.mk 999 1) Sample.world) = Throws not_found /\
  fst (deleteTask (DeleteTaskInput.mk 2 1) Sample.world) =
    Returns (DeleteTaskResponse.mk true) /\
  fst (deleteTask (DeleteTaskInput.mk 2 1)
         (snd (deleteTask (DeleteTaskInput.mk 2 1) Sample.world))) = Throws not_found /\
  fst (shareTask (ShareTaskInput.mk 1 2147483648) Sample.world) = Throws DatabaseError.
Proof.
  intros not_found.
  pose proof (delete_share_not_found Sample.world 4 1) as Hcross.
  pose proof (delete_share_not_found Sample.world 999 1) as Hnone.
  pose proof (delete_share_not_found Sample.world 2 1) as Htwice.
  pose proof (delete_share_not_found Sample.world 1 2147483648) as Hrefused.
  cbv zeta in Hcross, Hnone, Htwice, Hrefused.
  destruct Hcross as [Hcross _]. destruct (Hcross eq_refl eq_refl) as [[Hcd _] [Hcs _]].
  destruct Hnone as [Hnone _]. destruct (Hnone eq_refl eq_refl) as [[Hnd _] [Hns _]].
  destruct Htwice as [_ [_ Htwice]].
  destruct Hrefused as [_ [Hrefused _]].
  destruct (Hrefused (or_intror eq_refl)) as [_ Hshare].
  assert (Habsent4 : forall t, In t (tasks Sample.world) ->
                               Task.id t = 4 -> Task.user_id t <> 1)
    by (simpl; intros t [<- | [<- | [<- | [<- | []]]]]; simpl; intros; lia).
  assert (Habsent999 : forall t, In t (tasks Sample.world) ->
                                 Task.id t = 999 -> Task.user_id t <> 1)
    by (simpl; intros t [<- | [<- | [<- | [<- | []]]]]; simpl; intros; lia).
  rewrite (Hcd Habsent4), (Hnd Habsent999), (Hcs Habsent4), (Hns Habsent999).
  refine (conj eq_refl (conj eq_refl (conj eq_refl (conj eq_refl
           (conj eq_refl (conj _ _)))))).
  - rewrite (Htwice (DeleteTaskResponse.mk true)
               (snd (deleteTask (DeleteTaskInput.mk 2 1) Sample.world)) eq_refl).
    reflexivity.
  - exact (f_equal fst Hshare).
Defined.

(** Marking Alice's first task completed, sending no field at all, and
    sending a due date in the year 10000. *)
Lemma updateTask_frame_witness :
  task_with_id 1 Sample.world = Some Sample.docs_task /\
  (exists updated w',
     updateTask Sample.timestamp_ok
       (UpdateTaskInput.mk 1 None None None (Some true)) Sample.world =
       (Returns updated, w') /\
     Task.completed updated = true /\
     Task.title updated = Task.title Sample.docs_task /\
     Task.due_date updated = 1736208000000 /\
     task_with_id 1 w' = Some updated) /\
  updateTask Sample.timestamp_ok (UpdateTaskInput.mk 1 None None None None)
    Sample.world = (Returns Sample.docs_task, Sample.world) /\
  (exists w',
     updateTask Sample.timestamp_ok
       (UpdateTaskInput.mk 1 (Some "Renamed") None (Some Sample.year_10000) None)
       Sample.world = (Throws DatabaseError, w') /\
     tasks w' = tasks Sample.world).
Proof.
  split; [reflexivity | split; [| split]].
  - destruct (updateTask_frame Sample.timestamp_ok Sample.world
                (UpdateTaskInput.mk 1 None None None (Some true))
                Sample.docs_task eq_refl) as [_ [Haccepted _]].
    destruct (Haccepted eq_refl)
      as [updated [w' [Hrun [Ht [_ [Hd [Hc [_ [_ [_ Hstored]]]]]]]]]].
    exists updated, w'. repeat split; assumption.
  - destruct (updateTask_frame Sample.timestamp_ok Sample.world
                (UpdateTaskInput.mk 1 None None None None)
                Sample.docs_task eq_refl) as [_ [_ [_ Hnoop]]].
    exact (Hnoop eq_refl eq_refl eq_refl eq_refl).
  - destruct (updateTask_frame Sample.timestamp_ok Sample.world
                (UpdateTaskInput.mk 1 (Some "Renamed") None (Some Sample.year_10000) None)
                Sample.docs_task eq_refl) as [_ [_ [Hrefused _]]].
    destruct (Hrefused eq_refl) as [w' [Hrun [Htasks _]]].
    exists w'. split; assumption.
Defined.

(** The specification's own example: a title with double quotes and an
    ampersand, and an empty description. *)
Lemma shareTask_template_witness :
  task_of 1 1 Sample.world = Some Sample.docs_task /\
  shareTask (ShareTaskInput.mk 1 1) Sample.world =
    (Returns (ShareTaskResponse.mk Sample.docs_share_text), Sample.world).
Proof.
  split; [reflexivity |].
  exact (proj1 (shareTask_template Sample.world (ShareTaskInput.mk 1 1)
                  Sample.docs_task eq_refl)).
Defined.

(** Bob's stored credential has no colon. *)
Lemma malformed_credential_rejected_witness :
  let input := LoginUserInput.mk "bob@example.com" "securePassword123" in
  malformed_credential (User.password_hash Sample.bob) = true /\
  (forall password,
     verifyPassword Sample.digest password (User.password_hash Sample.bob) = false) /\
  loginUser Sample.digest input Sample.world =
    (Throws InvalidCredentials,
     logged "User login failed:" InvalidCredentials Sample.world).
Proof.
  intros input. split; [reflexivity |].
  apply (malformed_credential_rejected Sample.digest Sample.world input Sample.bob);
    reflexivity.
Defined.


(** The five-character password of the registration tests, a password
    of five Cyrillic letters (ten bytes), and an empty password at
    login. *)
Lemma registerUser_procedure_min_password_witness :
  registerUser_procedure Sample.radix64_digits Sample.looks_like_email
    1700000000009 [] Sample.short_password_input Sample.world =
    (Throws BadRequest, Sample.world) /\
  (String.length Sample.cyrillic_password = 10%nat /\
   registerUser_procedure Sample.radix64_digits Sample.looks_like_email
     1700000000009 []
     (credentials "short@example.com" Sample.cyrillic_password) Sample.world =
     (Throws BadRequest, Sample.world)) /\
  loginUser_procedure Sample.digest Sample.looks_like_email
    (JsObject [("email", JsString "alice@example.com"); ("password", JsString "")])
    Sample.world =
  loginUser Sample.digest (LoginUserInput.mk "alice@example.com" "") Sample.world.
Proof.
  destruct (registerUser_procedure_min_password Sample.digest Sample.radix64_digits
              Sample.looks_like_email Sample.world 1700000000009 []
              Sample.short_password_input "12345" eq_refl)
    as [Hshort [_ Hlogin]].
  - simpl. lia.
  - destruct (registerUser_procedure_min_password Sample.digest
                Sample.radix64_digits Sample.looks_like_email Sample.world
                1700000000009 []
                (credentials "short@example.com" Sample.cyrillic_password)
                Sample.cyrillic_password eq_refl)
      as [Hcyrillic _].
    + cbv. lia.
    + split; [exact Hshort |]. split; [split; [reflexivity | exact Hcyrillic] |].
      apply Hlogin. reflexivity.
Defined.

(* ===================================================================== *)
(** ** Worked instances of the further properties *)
(* ===================================================================== *)

(** Creating a task for Alice, for a user nobody knows, for a user id
    beyond the range of the id column, and with a description that holds
    the character U+0000. *)
Lemma createTask_outcomes_witness :
  fst (createTask Sample.timestamp_ok 1700000000009 SampleClient.new_task_input
         Sample.world) =
    Returns (Task.mk 5 1 "T" "D" 1735603200000 false 1700000000009) /\
  fst (createTask Sample.timestamp_ok 1700000000009
         (CreateTaskInput.mk 999 "T" "D" 1735603200000 false) Sample.world) =
    Throws (Error "User with id 999 not found") /\
  fst (createTask Sample.timestamp_ok 1700000000009
         (CreateTaskInput.mk 2147483648 "T" "D" 1735603200000 false) Sample.world) =
    Throws DatabaseError /\
  fst (createTask Sample.timestamp_ok 1700000000009
         (CreateTaskInput.mk 1 "T" (String Ascii.zero "D") 1735603200000 false)
         Sample.world) =
    Throws DatabaseError.
Proof.
  pose proof (createTask_outcomes Sample.timestamp_ok Sample.world 1700000000009
                SampleClient.new_task_input) as Hcreated.
  pose proof (createTask_outcomes Sample.timestamp_ok Sample.world 1700000000009
                (CreateTaskInput.mk 999 "T" "D" 1735603200000 false)) as Hunknown.
  pose proof (createTask_outcomes Sample.timestamp_ok Sample.world 1700000000009
                (CreateTaskInput.mk 2147483648 "T" "D" 1735603200000 false)) as Hrange.
  pose proof (createTask_outcomes Sample.timestamp_ok Sample.world 1700000000009
                (CreateTaskInput.mk 1 "T" (String Ascii.zero "D") 1735603200000 false))
    as Hzero.
  cbv zeta in Hcreated, Hunknown, Hrange, Hzero.
  assert (Halice : exists u, In u (users Sample.world) /\ User.id u = 1)
    by (exists Sample.alice; split; [now left | reflexivity]).
  destruct Hcreated as [_ [_ Hcreated]].
  destruct (Hcreated eq_refl Halice) as [Hcreated' _].
  destruct Hunknown as [Hunknown _].
  destruct Hrange as [_ [Hrange _]].
  destruct Hzero as [_ [_ Hzero]].
  destruct (Hzero eq_refl Halice) as [_ Hzero'].
  refine (conj _ (conj _ (conj _ _))).
  - exact (f_equal fst (Hcreated' eq_refl eq_refl eq_refl)).
  - rewrite (proj1 (Hunknown eq_refl)); [reflexivity |].
    simpl. intros u [<- | [<- | []]]; discriminate.
  - exact (f_equal fst (Hrange eq_refl)).
  - exact (f_equal fst (Hzero' (or_intror (or_introl eq_refl)))).
Defined.

(** The scenario of the specification: a task T for Alice, created in
    the sample store, shared, and deleted again. *)
Lemma createTask_round_trip_witness :
  let created := createTask Sample.timestamp_ok 1700000000009
                   SampleClient.new_task_input Sample.world in
  fst created =
    Returns (Task.mk 5 1 "T" "D" 1735603200000 false 1700000000009) /\
  fst (shareTask (ShareTaskInput.mk 5 1) (snd created)) =
    Returns (ShareTaskResponse.mk (shareText_of "T" "D")) /\
  fst (shareTask (ShareTaskInput.mk 5 2) (snd created)) = Throws TaskNotFound /\
  (exists w2,
     deleteTask (DeleteTaskInput.mk 5 1) (snd created) =
       (Returns (DeleteTaskResponse.mk true), w2) /\
     tasks w2 = tasks Sample.world /\ users w2 = users Sample.world).
Proof.
  intros created.
  assert (Hseq : forall t, In t (tasks Sample.world) ->
                           Task.id t <= tasks_seq Sample.world)
    by (simpl; intros t [<- | [<- | [<- | [<- | []]]]]; simpl; lia).
  destruct (createTask_round_trip Sample.timestamp_ok Sample.world (snd created)
              1700000000009 SampleClient.new_task_input
              (Task.mk 5 1 "T" "D" 1735603200000 false 1700000000009)
              Hseq eq_refl eq_refl)
    as [Hshare [Hother [_ Hdelete]]].
  split; [reflexivity |]. split; [exact (f_equal fst Hshare) |].
  split; [apply Hother; [reflexivity | discriminate] | exact Hdelete].
Defined.

Lemma createTask_then_list_witness :
  let created := createTask Sample.timestamp_ok 1700000000009
                   SampleClient.new_task_input Sample.world in
  let task := Task.mk 5 1 "T" "D" 1735603200000 false 1700000000009 in
  let results := [task; Sample.urgent_task; Sample.later_task; Sample.docs_task] in
  getUserTasks (GetUserTasksInput.mk 1) (snd created) (Returns results, snd created) /\
  In task results /\
  Permutation (task :: filter (owned_by 1) (tasks Sample.world)) results.
Proof.
  intros created task results.
  assert (Hlist : getUserTasks (GetUserTasksInput.mk 1) (snd created)
                    (Returns results, snd created)).
  { apply getUserTasks_unfold. exists results. split; [| reflexivity].
    exact (sort_asc_order_by Task.due_date
             (filter (owned_by 1) (tasks (snd created)))). }
  destruct (createTask_then_list Sample.timestamp_ok Sample.world (snd created)
              1700000000009 SampleClient.new_task_input task eq_refl) as [Hmine _].
  split; [exact Hlist | exact (Hmine results Hlist)].
Defined.

Lemma sample_world_consistent : consistent Sample.world.
Proof.
  unfold consistent. simpl.
  refine (conj _ (conj _ (conj _ (conj _ (conj _ _))))).
  - repeat (constructor; [simpl; intuition discriminate |]). constructor.
  - repeat (constructor; [simpl; intuition discriminate |]). constructor.
  - intros u [<- | [<- | []]]; simpl; lia.
  - repeat (constructor; [simpl; intuition discriminate |]). constructor.
  - intros t [<- | [<- | [<- | [<- | []]]]]; simpl; lia.
  - intros t [<- | [<- | [<- | [<- | []]]]]; simpl;
      first [exists Sample.alice; split; [now left | reflexivity]
            | exists Sample.bob; split; [right; now left | reflexivity]].
Defined.

Lemma handlers_keep_consistent_witness :
  consistent Sample.world /\
  consistent (snd (registerUser Sample.radix64_digits 1700000000009 []
                     (RegisterUserInput.mk "carol@example.com" "password123")
                     Sample.world)) /\
  consistent (snd (createTask Sample.timestamp_ok 1700000000009
                     SampleClient.new_task_input Sample.world)) /\
  consistent (snd (deleteTask (DeleteTaskInput.mk 2 1) Sample.world)).
Proof.
  destruct (handlers_keep_consistent Sample.digest Sample.radix64_digits
              Sample.timestamp_ok Sample.world sample_world_consistent)
    as [Hregister [_ [Hcreate [_ [_ [Hdelete _]]]]]].
  split; [exact sample_world_consistent |].
  split; [apply Hregister |]. split; [apply Hcreate | apply Hdelete].
Defined.

Lemma deleteTask_removes_only_target_witness :
  let w' := snd (deleteTask (DeleteTaskInput.mk 2 1) Sample.world) in
  tasks w' = [Sample.docs_task; Sample.later_task; Sample.bobs_task] /\
  exists target,
    Task.id target = 2 /\ Permutation (tasks Sample.world) (target :: tasks w').
Proof.
  intros w'. split; [reflexivity |].
  destruct (deleteTask_removes_only_target Sample.world w'
              (DeleteTaskInput.mk 2 1) (DeleteTaskResponse.mk true))
    as [target [_ [Hid [_ [_ [Hperm _]]]]]].
  - simpl. repeat (constructor; [simpl; intuition discriminate |]). constructor.
  - reflexivity.
  - exists target. split; [exact Hid | exact Hperm].
Defined.

(** The random bytes 5a 17 and the password secret1 give Alice's stored
    credential. *)
Lemma createPasswordHash_verifies_witness :
  createPasswordHash Sample.digest "secret1" [90; 23]%N =
    User.password_hash Sample.alice /\
  verifyPassword Sample.digest "secret1"
    (createPasswordHash Sample.digest "secret1" [90; 23]%N) = true.
Proof.
  split; [reflexivity |].
  assert (Hdigest : forall s, exists bytes,
             bytes <> [] /\ Forall (fun b => (b < 256)%N) bytes /\
             Sample.digest s = Js.Buffer_toString_hex bytes).
  { intros s. unfold Sample.digest.
    destruct (String.eqb s "secret15a17").
    - exists [192; 255; 238]%N. split; [discriminate |].
      split; [repeat (constructor; [reflexivity |]); constructor | reflexivity].
    - exists [222; 202; 222]%N. split; [discriminate |].
      split; [repeat (constructor; [reflexivity |]); constructor | reflexivity]. }
  assert (Hrandom : [90; 23]%N <> []) by discriminate.
  exact (proj1 (createPasswordHash_verifies Sample.digest "secret1" [90; 23]%N
                  Hrandom Hdigest)).
Defined.

Lemma verifyPassword_lenient_witness :
  verifyPassword Sample.digest "secret1" "5a17:c0ffee:anything" =
    verifyPassword Sample.digest "secret1" "5a17:c0ffee" /\
  verifyPassword Sample.digest "secret1" "5a17:C0FFEE" =
    verifyPassword Sample.digest "secret1" "5a17:c0ffee".
Proof.
  apply (verifyPassword_lenient Sample.digest "secret1" "5a17" "c0ffee" "anything").
  - simpl. intuition discriminate.
  - simpl. intuition discriminate.
Defined.

Lemma updateTask_idempotent_witness :
  let input := UpdateTaskInput.mk 1 None None None (Some true) in
  let once := updateTask Sample.timestamp_ok input Sample.world in
  (exists updated, fst once = Returns updated /\ Task.completed updated = true) /\
  updateTask Sample.timestamp_ok input (snd once) = once.
Proof.
  intros input once. split.
  - eexists. split; reflexivity.
  - destruct (updateTask_idempotent Sample.timestamp_ok Sample.world (snd once) input
                (Task.mk 1 1 (Task.title Sample.docs_task) "" 1736208000000 true
                   1700000000002) eq_refl) as [Hagain _].
    exact Hagain.
Defined.

(** Alice deletes the task due first, then creates one due before all
    the others: it goes to the end of her list. A task id beyond the
    range of the id column, and a due date in the year 10000, are
    refused by the database and leave her list as it is. *)
Lemma handleDeleteTask_keeps_view_witness :
  (exists w',
     handleDeleteTask SampleClient.alice 2 (SampleClient.dashboard, Sample.world) =
       (Returns tt,
        (Dashboard.mk [Sample.later_task; Sample.docs_task] false true "all" [], w')) /\
     Permutation (filter (owned_by 1) (tasks w')) [Sample.later_task; Sample.docs_task]) /\
  fst (handleDeleteTask SampleClient.alice 2147483648
         (SampleClient.dashboard, Sample.world)) = Throws DatabaseError.
Proof.
  assert (Hview : Permutation (filter (owned_by 1) (tasks Sample.world))
                    (Dashboard.tasks SampleClient.dashboard)).
  { simpl.
    apply (Permutation_cons_append [Sample.urgent_task; Sample.later_task]
             Sample.docs_task). }
  destruct (handleDeleteTask_keeps_view SampleClient.alice 2
              SampleClient.dashboard Sample.world eq_refl Hview) as [Hshown _].
  destruct (handleDeleteTask_keeps_view SampleClient.alice 2147483648
              SampleClient.dashboard Sample.world eq_refl Hview) as [_ [_ Hrefused]].
  split.
  - destruct (Hshown eq_refl) as [w' [Hrun [Hperm _]]].
    + exists Sample.urgent_task. split; [now left | reflexivity].
    + exists w'. split; [exact Hrun | exact Hperm].
  - exact (f_equal fst (Hrefused eq_refl)).
Defined.

Lemma handleCreateTask_appends_witness :
  let newTask := Task.mk 5 1 "T" "D" 1735603200000 false 1700000000009 in
  let shown := [Sample.urgent_task; Sample.later_task; Sample.docs_task; newTask] in
  (exists w',
     handleCreateTask Sample.timestamp_ok SampleClient.alice 1700000000009
       SampleClient.new_task (SampleClient.dashboard, Sample.world) =
       (Returns tt, (Dashboard.mk shown false false "all" [], w'))) /\
  ~ StronglySorted by_due_date shown /\
  handleCreateTask Sample.timestamp_ok SampleClient.alice 1700000000009
    (TaskData.mk "T" "D" Sample.year_10000 false)
    (SampleClient.dashboard, Sample.world) =
    (Throws DatabaseError,
     (dashboard_log "Failed to create task:" DatabaseError SampleClient.dashboard,
      logged "Task creation failed:" DatabaseError Sample.world)).
Proof.
  intros newTask shown.
  assert (Hview : Permutation (filter (owned_by 1) (tasks Sample.world))
                    (Dashboard.tasks SampleClient.dashboard)).
  { simpl.
    apply (Permutation_cons_append [Sample.urgent_task; Sample.later_task]
             Sample.docs_task). }
  assert (Halice : exists u, In u (users Sample.world) /\
                             User.id u = PublicUser.id SampleClient.alice)
    by (exists Sample.alice; split; [now left | reflexivity]).
  destruct (handleCreateTask_appends Sample.timestamp_ok SampleClient.alice
              1700000000009 SampleClient.new_task SampleClient.dashboard
              Sample.world Hview eq_refl Halice)
    as [Hcreated _].
  destruct (handleCreateTask_appends Sample.timestamp_ok SampleClient.alice
              1700000000009 (TaskData.mk "T" "D" Sample.year_10000 false)
              SampleClient.dashboard Sample.world Hview eq_refl Halice)
    as [_ [_ Hrefused]].
  assert (Hone : (1 <= Js.length "T")%nat) by (cbv; lia).
  destruct (Hcreated Hone eq_refl) as [w' [Hrun [_ Hsorted]]].
  refine (conj _ (conj _ _)).
  - exists w'. exact Hrun.
  - intros Hs. apply Hsorted in Hs. destruct Hs as [_ Hall].
    inversion Hall as [| ? ? Hfirst _]. simpl in Hfirst. lia.
  - exact (Hrefused Hone eq_refl).
Defined.


(** Alice with her password, Alice with a wrong one, and an email nobody
    has. *)
Lemma LoginForm_signs_in_witness :
  let submit email password :=
    LoginForm_handleSubmit (handleLogin Sample.digest Sample.looks_like_email)
      email password (SampleClient.signed_out, Sample.world) in
  submit "alice@example.com" "secret1" =
    ("", (App.mk (Some SampleClient.alice) false (Some SampleClient.alice) [],
          Sample.world)) /\
  fst (submit "alice@example.com" "wrongPassword") =
    "Invalid email or password. Please try again." /\
  fst (submit "nonexistent@example.com" "somePassword") =
    "Invalid email or password. Please try again.".
Proof.
  intros submit.
  destruct (LoginForm_signs_in Sample.digest Sample.looks_like_email
              "alice@example.com" "secret1" SampleClient.signed_out Sample.world)
    as [_ Hright].
  destruct (LoginForm_signs_in Sample.digest Sample.looks_like_email
              "alice@example.com" "wrongPassword" SampleClient.signed_out Sample.world)
    as [_ Hwrong].
  destruct (LoginForm_signs_in Sample.digest Sample.looks_like_email
              "nonexistent@example.com" "somePassword" SampleClient.signed_out
              Sample.world)
    as [_ Hunknown].
  cbv zeta in Hright, Hwrong, Hunknown.
  destruct Hright as [Hright _]; [discriminate | discriminate |].
  destruct Hwrong as [_ Hwrong]; [discriminate | discriminate |].
  destruct Hunknown as [_ Hunknown]; [discriminate | discriminate |].
  split; [exact (Hright Sample.alice eq_refl eq_refl eq_refl) |]. split.
  - apply Hwrong. right. right. exists Sample.alice. split; reflexivity.
  - apply Hunknown. right. left. reflexivity.
Defined.

Lemma deleteTask_then_gone_witness :
  let w' := snd (deleteTask (DeleteTaskInput.mk 2 1) Sample.world) in
  fst (shareTask (ShareTaskInput.mk 2 1) w') = Throws TaskNotFound /\
  fst (updateTask Sample.timestamp_ok
         (UpdateTaskInput.mk 2 (Some "Again") None None None) w') =
    Throws (Error "Task with id 2 not found").
Proof.
  intros w'.
  destruct (deleteTask_then_gone Sample.timestamp_ok Sample.world w'
              (DeleteTaskInput.mk 2 1) (DeleteTaskResponse.mk true))
    as [Hshare [_ [Hupdate _]]].
  - simpl. repeat (constructor; [simpl; intuition discriminate |]). constructor.
  - reflexivity.
  - split; [apply Hshare; reflexivity | apply Hupdate].
Defined.
